(** * ChargeAI metered gateway: the rate limiter and the chat route

    A shallow embedding of [src/lib/rate-limit.ts] and of the two request
    handlers of [src/app/api/chat/route.ts], with the properties the
    specification states about them.

    Conventions.
    - Money is counted in thousandths of the currency unit (the ledger keeps
      three decimal places), as a [Z].
    - [Date.now()] is a [Z] number of milliseconds.
    - Strings are byte strings; a JavaScript string is its UTF-8 encoding.
    - A handler is a function of the request, of what it observes of its
      environment (clock, random draw, provider's answer) and of the stores;
      requests are handled one after the other. *)

From Stdlib Require Import ZArith Lia String Ascii List DecimalString.
From Stdlib Require DecimalFacts DecimalPos DecimalN DecimalZ.
From stdpp Require Import base option gmap strings list fin_maps.

Set Warnings "-register-all,-clear-no-such-hyp".

Local Open Scope string_scope.
Local Open Scope list_scope.
Local Open Scope Z_scope.

(** ** Numbers in template strings *)

(** [`${n}`] for an integer [n]: its decimal numeral. *)
Definition num_to_string (n : Z) : string :=
  NilZero.string_of_int (Z.to_int n).

Definition is_digit (c : ascii) : bool :=
  let n := nat_of_ascii c in (48 <=? n)%nat && (n <=? 57)%nat.

Fixpoint all_digits (s : string) : bool :=
  match s with
  | EmptyString => true
  | String c s' => is_digit c && all_digits s'
  end.

(** ** src/lib/rate-limit.ts *)

Module RateLimit.

(** [RATE_LIMIT = { requests: 60, window: 60 }] *)
Definition RATE_LIMIT_requests : Z := 60.
Definition RATE_LIMIT_window : Z := 60.

(** A Redis sorted set: members are unique, each carries a score. *)
Abbreviation zset := (gmap string Z).

(** The keys of the counter store: a sorted set and the time (ms) at which
    the key expires. *)
Abbreviation RateDb := (gmap string (gmap string Z * Z)).

(** The sorted set stored under [key], as a command run at [clock] sees it:
    an expired key is gone. *)
Definition zget (key : string) (clock : Z) (db : RateDb) : zset :=
  match db !! key with
  | Some (z, expires) => if bool_decide (clock < expires) then z else ∅
  | None => ∅
  end.

(** [ZREMRANGEBYSCORE key lo hi]: drops the members with [lo <= score <= hi]. *)
Definition zremrangebyscore (lo hi : Z) (z : zset) : zset :=
  filter (λ kv, ¬ (lo ≤ kv.2 ≤ hi)) z.

(** [ZCARD key] *)
Definition zcard (z : zset) : Z := Z.of_nat (size z).

(** [ZADD key score member]: a member already present only changes score. *)
Definition zadd (score : Z) (member : string) (z : zset) : zset :=
  <[member := score]> z.

(** [ZRANGE key 0 0 WITHSCORES]: the score of the lowest-ranked member. *)
Definition zrange_first_score (z : zset) : option Z :=
  map_fold (λ _ s acc, Some (match acc with None => s | Some a => Z.min a s end))
           None z.

Record RateLimitResult := {
  success : bool;
  remaining : Z;
  reset : Z;
  limit : Z;
  error : option string
}.

(** [rateLimit(userId)], run at [Date.now() = clock], with [random] the
    rendering of [Math.random()]; [up = false] is the store being
    unreachable, which the [catch] turns into an allowed request. *)
Definition rateLimit (userId : string) (clock : Z) (random : string)
    (up : bool) (db : RateDb) : RateLimitResult * RateDb :=
  if up then
    let now := clock / 1000 in
    let key := "rate_limit:" +:+ userId in
    let z1 := zremrangebyscore 0 (now - RATE_LIMIT_window) (zget key clock db) in
    let requestCount := zcard z1 in
    let z2 := zadd now (num_to_string now +:+ "-" +:+ random) z1 in
    let db' := <[key := (z2, clock + RATE_LIMIT_window * 1000)]> db in
    let resetTime :=
      match zrange_first_score z2 with
      | Some s => s + RATE_LIMIT_window
      | None => now + RATE_LIMIT_window
      end in
    if bool_decide (requestCount >= RATE_LIMIT_requests) then
      ({| success := false; remaining := 0; reset := resetTime;
          limit := RATE_LIMIT_requests; error := None |}, db')
    else
      ({| success := true; remaining := RATE_LIMIT_requests - requestCount;
          reset := resetTime; limit := RATE_LIMIT_requests; error := None |}, db')
  else
    ({| success := true; remaining := 1; reset := clock / 1000 + 3600;
        limit := RATE_LIMIT_requests;
        error := Some "Rate limiting temporarily unavailable" |}, db).

Global Arguments rateLimit : simpl never.

(** The number [pipeline.exec()] reports as [results[1][1]] for a call at
    [clock]: the entries of the account's window that survive the purge. *)
Definition window_count (userId : string) (clock : Z) (db : RateDb) : Z :=
  zcard (zremrangebyscore 0 (clock / 1000 - RATE_LIMIT_window)
           (zget ("rate_limit:" +:+ userId) clock db)).

(** Successive calls for one account; each call is the clock and the
    random draw it sees. *)
Fixpoint rateLimit_seq (userId : string) (calls : list (Z * string))
    (db : RateDb) : list RateLimitResult * RateDb :=
  match calls with
  | [] => ([], db)
  | (clock, random) :: rest =>
      let '(r, db1) := rateLimit userId clock random true db in
      let '(rs, db2) := rateLimit_seq userId rest db1 in
      (r :: rs, db2)
  end.

End RateLimit.

(** What every call of [userId] issued during the second that starts at [t0]
    sees once the draws [seen] have been recorded: one entry per draw, none
    of them old enough to be purged. *)
Definition burst_window (userId : string) (t0 : Z) (seen : list string)
    (db : gmap string (gmap string Z * Z)) : Prop :=
  ∀ clock, t0 ≤ clock ≤ t0 + 1000 →
    size (RateLimit.zget ("rate_limit:" +:+ userId) clock db) = length seen ∧
    ∀ m s, RateLimit.zget ("rate_limit:" +:+ userId) clock db !! m = Some s →
      t0 / 1000 ≤ s ∧ ∃ n r, 0 ≤ n ∧ r ∈ seen ∧ m = num_to_string n +:+ "-" +:+ r.

(** The draws of a burst of [n] calls at clock [t]: ["0"], ["1"], ... *)
Definition burst (t : Z) (n : nat) : list (Z * string) :=
  (λ k, (t, num_to_string (Z.of_nat k))) <$> seq 0 n.

(** ** JSON values

    What [JSON.parse] returns and [JSON.stringify] prints. Numbers are the
    integers (token counts, and amounts in thousandths); a fractional number
    is outside the model. An object keeps its members in insertion order. *)

Inductive json : Type :=
| JNull
| JBool (b : bool)
| JNum (n : Z)
| JStr (s : string)
| JArr (items : list json)
| JObj (members : list (string * json)).

(** A JavaScript value that may be [undefined]. *)
Abbreviation jsval := (option json).

(** [if (v)]: [undefined], [null], [false], [0] and [""] are falsy. *)
Definition truthy (v : jsval) : bool :=
  match v with
  | None | Some JNull | Some (JBool false) | Some (JNum 0) | Some (JStr "") => false
  | Some _ => true
  end.

(** The member of an object read by [o[k]]: with a repeated key the last
    one counts. *)
Fixpoint obj_get (k : string) (members : list (string * json)) : jsval :=
  match members with
  | [] => None
  | (k', v) :: rest =>
      match obj_get k rest with
      | Some w => Some w
      | None => if bool_decide (k' = k) then Some v else None
      end
  end.

(** [v.k] for [k] one of the data properties the route reads ([usage],
    [total_tokens], [error], [message]): a [TypeError] ([None]) on [undefined]
    and [null], the member for an object, [undefined] for anything else. *)
Definition js_member (v : jsval) (k : string) : option jsval :=
  match v with
  | None | Some JNull => None
  | Some (JObj members) => Some (obj_get k members)
  | Some _ => Some None
  end.

(** [v?.k]: as [v.k], but [undefined] where [v.k] throws. *)
Definition js_opt_member (v : jsval) (k : string) : jsval :=
  match js_member v k with
  | Some w => w
  | None => None
  end.

(** [o[k] = v] on the members of an object: an existing key keeps its place. *)
Fixpoint obj_set (k : string) (v : json) (members : list (string * json))
    : list (string * json) :=
  match members with
  | [] => [(k, v)]
  | (k', v') :: rest =>
      if bool_decide (k' = k) then (k, v) :: rest else (k', v') :: obj_set k v rest
  end.

(** [{...v}]: the members of an object; [null], a number and a boolean
    spread to nothing. The route spreads a value only after reading
    [v.usage.total_tokens], so an array or a string never gets here with a
    usage. *)
Definition js_spread (v : json) : list (string * json) :=
  match v with
  | JObj members => members
  | _ => []
  end.

(** *** [JSON.stringify] *)

(** The double quote and the line feed. *)
Definition dquote : ascii := "034"%char.
Definition LF : ascii := "010"%char.

Definition hex_digit (n : N) : ascii :=
  ascii_of_N (if (n <? 10)%N then 48 + n else 87 + n).

(** One character of a string literal, escaped as [JSON.stringify] does. *)
Definition escape_char (c : ascii) : string :=
  let n := N_of_ascii c in
  if (n =? 34)%N then String "\" (String dquote "")
  else if (n =? 92)%N then "\\"
  else if (n =? 8)%N then "\b"
  else if (n =? 12)%N then "\f"
  else if (n =? 10)%N then "\n"
  else if (n =? 13)%N then "\r"
  else if (n =? 9)%N then "\t"
  else if (n <? 32)%N then
    "\u00" +:+ String (hex_digit (n / 16)) (String (hex_digit (n mod 16)) "")
  else String c "".

Fixpoint escape (s : string) : string :=
  match s with
  | EmptyString => ""
  | String c s' => escape_char c +:+ escape s'
  end.

Definition quote (s : string) : string :=
  String dquote (escape s +:+ String dquote "").

Fixpoint join (sep : string) (parts : list string) : string :=
  match parts with
  | [] => ""
  | [p] => p
  | p :: rest => p +:+ sep +:+ join sep rest
  end.

Fixpoint JSON_stringify (v : json) : string :=
  match v with
  | JNull => "null"
  | JBool true => "true"
  | JBool false => "false"
  | JNum n => num_to_string n
  | JStr s => quote s
  | JArr items => "[" +:+ join "," (map JSON_stringify items) +:+ "]"
  | JObj members =>
      "{" +:+ join "," (map (λ kv, quote kv.1 +:+ ":" +:+ JSON_stringify kv.2) members)
          +:+ "}"
  end.

(** *** [JSON.parse]

    A parser for the JSON texts whose numbers are integers and whose
    [\u] escapes name ASCII characters; on such a text it returns what
    [JSON.parse] returns, and it refuses every other text. It evaluates the
    handlers on concrete requests; the general statements below hold for any
    parser. *)

Definition is_ws (c : ascii) : bool :=
  let n := N_of_ascii c in
  (n =? 32)%N || (n =? 9)%N || (n =? 10)%N || (n =? 13)%N.

Fixpoint skip_ws (s : string) : string :=
  match s with
  | String c s' => if is_ws c then skip_ws s' else s
  | EmptyString => s
  end.

(** [s.startsWith(p)], with [s.slice(p.length)] when it does. *)
Fixpoint strip_prefix (p s : string) : option string :=
  match p with
  | EmptyString => Some s
  | String c p' =>
      match s with
      | String d s' => if Ascii.eqb c d then strip_prefix p' s' else None
      | EmptyString => None
      end
  end.

Fixpoint span_digits (s : string) : string * string :=
  match s with
  | String c s' =>
      if is_digit c then let '(d, r) := span_digits s' in (String c d, r)
      else ("", s)
  | EmptyString => ("", "")
  end.

Definition starts_fraction (s : string) : bool :=
  match s with
  | String c _ => Ascii.eqb c "." || Ascii.eqb c "e" || Ascii.eqb c "E"
  | EmptyString => false
  end.

Definition parse_digits (s : string) : option (Z * string) :=
  let '(d, r) := span_digits s in
  if starts_fraction r then None
  else
    match d with
    | EmptyString => None
    | String c (String _ _) =>
        if Ascii.eqb c "0" then None
        else (λ u, (Z.of_uint u, r)) <$> NilEmpty.uint_of_string d
    | _ => (λ u, (Z.of_uint u, r)) <$> NilEmpty.uint_of_string d
    end.

Definition parse_number (s : string) : option (Z * string) :=
  match s with
  | String c s' =>
      if Ascii.eqb c "-" then (λ nr : Z * string, (- nr.1, nr.2)) <$> parse_digits s'
      else parse_digits s
  | EmptyString => None
  end.

Definition hex_value (c : ascii) : option N :=
  let n := N_of_ascii c in
  if (48 <=? n)%N && (n <=? 57)%N then Some (n - 48)%N
  else if (97 <=? n)%N && (n <=? 102)%N then Some (n - 87)%N
  else if (65 <=? n)%N && (n <=? 70)%N then Some (n - 55)%N
  else None.

Definition cons_char (c : ascii) (r : option (string * string)) : option (string * string) :=
  (λ xr : string * string, (String c xr.1, xr.2)) <$> r.

(** The rest of a string literal, after its opening quote. *)
Fixpoint parse_string_body (s : string) : option (string * string) :=
  match s with
  | EmptyString => None
  | String c s' =>
      if Ascii.eqb c dquote then Some ("", s')
      else if Ascii.eqb c "\" then
        match s' with
        | String e s'' =>
            if Ascii.eqb e dquote then cons_char dquote (parse_string_body s'')
            else if Ascii.eqb e "\" then cons_char "\" (parse_string_body s'')
            else if Ascii.eqb e "/" then cons_char "/" (parse_string_body s'')
            else if Ascii.eqb e "b" then cons_char "008" (parse_string_body s'')
            else if Ascii.eqb e "f" then cons_char "012" (parse_string_body s'')
            else if Ascii.eqb e "n" then cons_char "010" (parse_string_body s'')
            else if Ascii.eqb e "r" then cons_char "013" (parse_string_body s'')
            else if Ascii.eqb e "t" then cons_char "009" (parse_string_body s'')
            else if Ascii.eqb e "u" then
              match s'' with
              | String h1 (String h2 (String h3 (String h4 s3))) =>
                  match hex_value h1, hex_value h2, hex_value h3, hex_value h4 with
                  | Some 0%N, Some 0%N, Some a, Some b =>
                      if (a <? 8)%N
                      then cons_char (ascii_of_N (16 * a + b)) (parse_string_body s3)
                      else None
                  | _, _, _, _ => None
                  end
              | _ => None
              end
            else None
        | EmptyString => None
        end
      else if (N_of_ascii c <? 32)%N then None
      else cons_char c (parse_string_body s')
  end.

(** [x (, x)* close], with [p] reading one [x]; [n] bounds the number of
    elements (a text has fewer elements than characters). *)
Fixpoint parse_seq {A} (p : string → option (A * string)) (close : ascii)
    (n : nat) (s : string) : option (list A * string) :=
  match n with
  | O => None
  | S n' =>
      match p s with
      | None => None
      | Some (x, r) =>
          match skip_ws r with
          | String c r' =>
              if Ascii.eqb c "," then
                (λ xr : list A * string, (x :: xr.1, xr.2)) <$> parse_seq p close n' r'
              else if Ascii.eqb c close then Some ([x], r')
              else None
          | EmptyString => None
          end
      end
  end.

(** One member of an object: [ "key" : value ]. *)
Definition parse_member (p : string → option (json * string)) (s : string)
    : option ((string * json) * string) :=
  match skip_ws s with
  | String c r =>
      if Ascii.eqb c dquote then
        match parse_string_body r with
        | Some (k, r1) =>
            match skip_ws r1 with
            | String c2 r2 =>
                if Ascii.eqb c2 ":" then
                  (λ vr : json * string, ((k, vr.1), vr.2)) <$> p r2
                else None
            | EmptyString => None
            end
        | None => None
        end
      else None
  | EmptyString => None
  end.

Fixpoint parse_value (fuel : nat) (s : string) : option (json * string) :=
  match fuel with
  | O => None
  | S fuel' =>
      match skip_ws s with
      | EmptyString => None
      | String c r =>
          if Ascii.eqb c "n" then (λ r', (JNull, r')) <$> strip_prefix "ull" r
          else if Ascii.eqb c "t" then (λ r', (JBool true, r')) <$> strip_prefix "rue" r
          else if Ascii.eqb c "f" then (λ r', (JBool false, r')) <$> strip_prefix "alse" r
          else if Ascii.eqb c dquote then
            (λ xr : string * string, (JStr xr.1, xr.2)) <$> parse_string_body r
          else if Ascii.eqb c "[" then
            match skip_ws r with
            | String c' r' =>
                if Ascii.eqb c' "]" then Some (JArr [], r')
                else (λ xr : list json * string, (JArr xr.1, xr.2))
                       <$> parse_seq (parse_value fuel') "]" fuel' r
            | EmptyString => None
            end
          else if Ascii.eqb c "{" then
            match skip_ws r with
            | String c' r' =>
                if Ascii.eqb c' "}" then Some (JObj [], r')
                else (λ xr : list (string * json) * string, (JObj xr.1, xr.2))
                       <$> parse_seq (parse_member (parse_value fuel')) "}" fuel' r
            | EmptyString => None
            end
          else if Ascii.eqb c "-" || is_digit c then
            (λ nr : Z * string, (JNum nr.1, nr.2)) <$> parse_number (String c r)
          else None
      end
  end.


(** The characters a value printed by [JSON.stringify] may start with. *)
Definition value_head (c : ascii) : bool :=
  Ascii.eqb c "n" || Ascii.eqb c "t" || Ascii.eqb c "f" || Ascii.eqb c dquote
  || Ascii.eqb c "[" || Ascii.eqb c "{" || Ascii.eqb c "-" || is_digit c.

Definition JSON_parse_text (s : string) : option json :=
  match parse_value (S (String.length s)) s with
  | Some (v, r) =>
      match skip_ws r with
      | EmptyString => Some v
      | String _ _ => None
      end
  | None => None
  end.

(** ** MD5 (RFC 1321), as [crypto.createHash('md5')] computes it *)

Module MD5.

Definition mask32 (x : Z) : Z := x mod 2 ^ 32.

Definition not32 (x : Z) : Z := Z.lxor x 0xffffffff.

Definition rotl32 (x c : Z) : Z :=
  mask32 (Z.lor (Z.shiftl x c) (Z.shiftr x (32 - c))).

(** [K[i] = floor(2^32 * abs(sin(i + 1)))] *)
Definition K : list Z := [
  0xd76aa478; 0xe8c7b756; 0x242070db; 0xc1bdceee;
  0xf57c0faf; 0x4787c62a; 0xa8304613; 0xfd469501;
  0x698098d8; 0x8b44f7af; 0xffff5bb1; 0x895cd7be;
  0x6b901122; 0xfd987193; 0xa679438e; 0x49b40821;
  0xf61e2562; 0xc040b340; 0x265e5a51; 0xe9b6c7aa;
  0xd62f105d; 0x02441453; 0xd8a1e681; 0xe7d3fbc8;
  0x21e1cde6; 0xc33707d6; 0xf4d50d87; 0x455a14ed;
  0xa9e3e905; 0xfcefa3f8; 0x676f02d9; 0x8d2a4c8a;
  0xfffa3942; 0x8771f681; 0x6d9d6122; 0xfde5380c;
  0xa4beea44; 0x4bdecfa9; 0xf6bb4b60; 0xbebfbc70;
  0x289b7ec6; 0xeaa127fa; 0xd4ef3085; 0x04881d05;
  0xd9d4d039; 0xe6db99e5; 0x1fa27cf8; 0xc4ac5665;
  0xf4292244; 0x432aff97; 0xab9423a7; 0xfc93a039;
  0x655b59c3; 0x8f0ccc92; 0xffeff47d; 0x85845dd1;
  0x6fa87e4f; 0xfe2ce6e0; 0xa3014314; 0x4e0811a1;
  0xf7537e82; 0xbd3af235; 0x2ad7d2bb; 0xeb86d391
].

(** The per-round shift amounts. *)
Definition shifts : list Z := [
  7; 12; 17; 22; 7; 12; 17; 22; 7; 12; 17; 22; 7; 12; 17; 22;
  5; 9; 14; 20; 5; 9; 14; 20; 5; 9; 14; 20; 5; 9; 14; 20;
  4; 11; 16; 23; 4; 11; 16; 23; 4; 11; 16; 23; 4; 11; 16; 23;
  6; 10; 15; 21; 6; 10; 15; 21; 6; 10; 15; 21; 6; 10; 15; 21
].

(** The chaining value: four 32-bit words. *)
Record state := { wa : Z; wb : Z; wc : Z; wd : Z }.

Definition init : state :=
  {| wa := 0x67452301; wb := 0xefcdab89; wc := 0x98badcfe; wd := 0x10325476 |}.

(** Operation [i] of the 64 applied to one block [M] of sixteen words. *)
Definition step (M : list Z) (st : state) (i : nat) : state :=
  let '(f, g) :=
    if (i <? 16)%nat then
      (Z.lor (Z.land (wb st) (wc st)) (Z.land (not32 (wb st)) (wd st)), i)
    else if (i <? 32)%nat then
      (Z.lor (Z.land (wd st) (wb st)) (Z.land (not32 (wd st)) (wc st)),
       ((5 * i + 1) mod 16)%nat)
    else if (i <? 48)%nat then
      (Z.lxor (Z.lxor (wb st) (wc st)) (wd st), ((3 * i + 5) mod 16)%nat)
    else
      (Z.lxor (wc st) (Z.lor (wb st) (not32 (wd st))), ((7 * i) mod 16)%nat) in
  let f' := mask32 (f + wa st + nth i K 0 + nth g M 0) in
  {| wa := wd st;
     wb := mask32 (wb st + rotl32 f' (nth i shifts 0));
     wc := wb st;
     wd := wc st |}.

Definition compress (st : state) (M : list Z) : state :=
  let r := fold_left (step M) (seq 0 64) st in
  {| wa := mask32 (wa st + wa r); wb := mask32 (wb st + wb r);
     wc := mask32 (wc st + wc r); wd := mask32 (wd st + wd r) |}.

(** [n] bytes of [x], least significant first. *)
Fixpoint le_bytes (n : nat) (x : Z) : list Z :=
  match n with
  | O => []
  | S n' => x mod 256 :: le_bytes n' (x / 256)
  end.

Fixpoint le_word (bytes : list Z) : Z :=
  match bytes with
  | [] => 0
  | b :: rest => b + 256 * le_word rest
  end.

(** The message followed by a one bit, zeros up to 56 modulo 64 bytes, and
    the length in bits on eight bytes. *)
Definition pad (msg : list Z) : list Z :=
  let len := Z.of_nat (length msg) in
  msg ++ [0x80] ++ repeat 0 (Z.to_nat ((55 - len) mod 64)) ++ le_bytes 8 (8 * len).

(** Sixteen words per 64-byte block; [n] bounds the number of blocks. *)
Fixpoint blocks (n : nat) (bytes : list Z) : list (list Z) :=
  match n with
  | O => []
  | S n' =>
      match bytes with
      | [] => []
      | _ => ((λ k, le_word (firstn 4 (skipn (4 * k) bytes))) <$> seq 0 16)
             :: blocks n' (skipn 64 bytes)
      end
  end.

Definition bytes_of_string (s : string) : list Z :=
  (λ c, Z.of_N (N_of_ascii c)) <$> list_ascii_of_string s.

Definition digest (s : string) : state :=
  let bytes := pad (bytes_of_string s) in
  fold_left compress (blocks (length bytes) bytes) init.

Definition hex_byte (b : Z) : string :=
  String (hex_digit (Z.to_N (b / 16))) (String (hex_digit (Z.to_N (b mod 16))) "").

Definition hex_word (w : Z) : string :=
  fold_right (λ b acc, hex_byte b +:+ acc) "" (le_bytes 4 w).

(** [.digest('hex')] *)
Definition hex_of_state (st : state) : string :=
  hex_word (wa st) +:+ hex_word (wb st) +:+ hex_word (wc st) +:+ hex_word (wd st).

Definition md5_hex (s : string) : string := hex_of_state (digest s).

End MD5.



(** ** Lines of a chunk *)

(** [s.split('\n')] *)
Fixpoint split_lines (s : string) : list string :=
  match s with
  | EmptyString => [EmptyString]
  | String c s' =>
      if Ascii.eqb c LF then EmptyString :: split_lines s'
      else
        match split_lines s' with
        | l :: ls => String c l :: ls
        | [] => [String c EmptyString]
        end
  end.

(** ** The stores the route talks to *)

(** A wallet document: [userId] may be missing. *)
Record Wallet := { userId : option string; balance : Z }.

(** [if (wallet.userId)] *)
Definition has_userId (w : Wallet) : bool :=
  match userId w with
  | Some u => negb (String.eqb u "")
  | None => false
  end.

(** [`${wallet.userId}`] *)
Definition userId_text (w : Wallet) : string := default "undefined" (userId w).

Definition wallet_json (w : Wallet) : json :=
  JObj (match userId w with Some u => [("userId", JStr u)] | None => [] end
        ++ [("balance", JNum (balance w))]).

Record LedgerTransaction := {
  accountId : option string;
  delta : Z;
  description : string
}.

(** Everything that outlives a request: the identity store (wallets by API
    key) and the ledger of [@/lib/mongodb], the in-process [walletCache] map
    (wallet and the time it was fetched), the string keys of Redis (value and
    expiry time) and the rate limiter's sorted sets. The keys of the rate
    limiter start with [rate_limit:], the route's keys are hexadecimal digests
    or start with [wallet:], so the two families never meet. *)
Record World := {
  wallets : gmap string Wallet;
  ledger : list LedgerTransaction;
  walletCache : gmap string (Wallet * Z);
  redis : gmap string (string * Z);
  rate : gmap string (gmap string Z * Z);
  (** The account of every call of [rateLimit] made so far, oldest first. *)
  rate_calls : list string
}.

Definition set_wallets (f : gmap string Wallet → gmap string Wallet) (w : World) : World :=
  {| wallets := f (wallets w); ledger := ledger w; walletCache := walletCache w;
     redis := redis w; rate := rate w; rate_calls := rate_calls w |}.
Definition set_ledger (f : list LedgerTransaction → list LedgerTransaction) (w : World) : World :=
  {| wallets := wallets w; ledger := f (ledger w); walletCache := walletCache w;
     redis := redis w; rate := rate w; rate_calls := rate_calls w |}.
Definition set_walletCache (f : gmap string (Wallet * Z) → gmap string (Wallet * Z))
    (w : World) : World :=
  {| wallets := wallets w; ledger := ledger w; walletCache := f (walletCache w);
     redis := redis w; rate := rate w; rate_calls := rate_calls w |}.
Definition set_redis (f : gmap string (string * Z) → gmap string (string * Z))
    (w : World) : World :=
  {| wallets := wallets w; ledger := ledger w; walletCache := walletCache w;
     redis := f (redis w); rate := rate w; rate_calls := rate_calls w |}.
Definition set_rate (uid : string) (r : gmap string (gmap string Z * Z)) (w : World)
    : World :=
  {| wallets := wallets w; ledger := ledger w; walletCache := walletCache w;
     redis := redis w; rate := r; rate_calls := rate_calls w ++ [uid] |}.

(** Modelled from the spec: [getWalletByApiKey] of [@/lib/mongodb], which is
    not among the sources. "Identity store: given an API key, returns an
    account identifier and current prepaid balance, or not found." *)
Definition db_getWalletByApiKey (apiKey : string) (w : World) : option Wallet :=
  wallets w !! apiKey.

(** Modelled from the spec: [updateWalletBalance] of [@/lib/mongodb], which is
    not among the sources. "Ledger store: durably persists a balance delta and
    a human-readable description for an account": one more ledger transaction,
    and the delta added to the account's balance. *)
Definition db_updateWalletBalance (uid : option string) (d : Z) (desc : string)
    (w : World) : World :=
  set_ledger (λ l, l ++ [{| accountId := uid; delta := d; description := desc |}])
    (set_wallets
       (fmap (λ x, if bool_decide (is_Some uid ∧ userId x = uid)
                   then {| userId := userId x; balance := balance x + d |} else x))
       w).

(** ** What a request sees of its environment *)

Record AxiosError := {
  ax_message : string;
  (** [error.response]: the upstream status and body, when it answered. *)
  ax_response : option (Z * jsval)
}.

Inductive AxiosResult (A : Type) : Type :=
| Resolved (data : A)
| Rejected (e : AxiosError).
Global Arguments Resolved {A} data.
Global Arguments Rejected {A} e.

(** [clock] is [Date.now()], [random] the rendering of [Math.random()],
    [redis_up] whether Redis answers, and the two [axios] fields what the
    provider answers to a buffered and to a streaming call (given the URL
    and the body posted): the chunks of a stream are the [data] events, in
    order, of a stream that then ends. *)
Record Env := {
  clock : Z;
  random : string;
  redis_up : bool;
  axios_json : string → json → AxiosResult json;
  axios_stream : string → json → AxiosResult (list string)
}.

(** The environment variables the route reads. *)
Record Config := {
  AZURE_OPENAI_ENDPOINT : option string;
  AZURE_OPENAI_API_KEY : option string;
  AZURE_GPT4_DEPLOYMENT_NAME : option string;
  AZURE_OPENAI_DEPLOYMENT_NAME : option string;
  AZURE_GPT35_DEPLOYMENT_NAME : option string
}.

(** [if (s)] for an environment variable. *)
Definition nonempty (s : option string) : bool :=
  match s with
  | Some x => negb (String.eqb x "")
  | None => false
  end.

(** [MODEL_DEPLOYMENTS[model]], for [model] one of the three keys or a name
    that is no property of an object at all (the properties every object
    inherits, such as [constructor], are left out). *)
Definition MODEL_DEPLOYMENTS (cfg : Config) (model : string) : option string :=
  if String.eqb model "gpt-4" then AZURE_GPT4_DEPLOYMENT_NAME cfg
  else if String.eqb model "gpt-4o" then AZURE_OPENAI_DEPLOYMENT_NAME cfg
  else if String.eqb model "gpt-3.5-turbo" then AZURE_GPT35_DEPLOYMENT_NAME cfg
  else None.

Definition AZURE_apiVersion : string := "2023-05-15".

(** ** Requests and responses *)

(** The body of a request as the destructuring reads it; the types are those
    of the route's signatures ([messages: any[]], [model: string],
    [temperature?: number], [max_tokens?: number]). *)
Record ChatBody := {
  messages : list json;
  model : option string;
  temperature : option Z;
  max_tokens : option Z;
  stream : option bool
}.

(** [api_key] is [request.headers.get("api-key")]; [json_body] is [None]
    when [request.json()] rejects. *)
Record Request := {
  api_key : option string;
  json_body : option ChatBody
}.

Inductive Body :=
| BodyJson (v : json)
| BodyStream (frames : list string)
| BodyEmpty.

Record Response := {
  status : Z;
  headers : list (string * string);
  body : Body
}.

Definition CORS_HEADERS : list (string * string) := [
  ("Access-Control-Allow-Origin", "*");
  ("Access-Control-Allow-Methods", "GET, POST, PUT, DELETE, OPTIONS");
  ("Access-Control-Allow-Headers", "Content-Type, Authorization, api-key");
  ("Access-Control-Max-Age", "86400")
].

(** [NextResponse.json(v, { status, headers: CORS_HEADERS })] *)
Definition json_response (st : Z) (v : json) : Response :=
  {| status := st; headers := CORS_HEADERS; body := BodyJson v |}.

(** [NextResponse.json({ error: message }, { status, headers })] *)
Definition error_response (st : Z) (message : json) : Response :=
  json_response st (JObj [("error", message)]).

Definition OPTIONS : Response :=
  {| status := 204; headers := CORS_HEADERS; body := BodyEmpty |}.

(** ** Handlers: state and exceptions *)

Inductive Thrown :=
| Error (message : string)
| AxiosFailure (e : AxiosError).

(** A computation that reads and writes the world and may throw. *)
Definition M (A : Type) : Type := World → (Thrown + A) * World.

Global Instance M_ret : MRet M := λ A x w, (inr x, w).
Global Instance M_bind : MBind M := λ A B f m w,
  match m w with
  | (inl e, w') => (inl e, w')
  | (inr x, w') => f x w'
  end.

Global Instance M_fmap : FMap M := λ A B f m w,
  match m w with
  | (inl e, w') => (inl e, w')
  | (inr x, w') => (inr (f x), w')
  end.

Definition throw {A} (e : Thrown) : M A := λ w, (inl e, w).
Definition modify (f : World → World) : M unit := λ w, (inr tt, f w).
Definition gets {A} (f : World → A) : M A := λ w, (inr (f w), w).

(** [try { m } catch (error) { h error }] *)
Definition try_catch {A} (m : M A) (h : Thrown → M A) : M A := λ w,
  match m w with
  | (inl e, w') => h e w'
  | (inr x, w') => (inr x, w')
  end.

(** [await axios.post(...)] *)
Definition await_axios {A} (r : AxiosResult A) : M A :=
  match r with
  | Resolved data => mret data
  | Rejected e => throw (AxiosFailure e)
  end.

(** [v.k1.k2...]; a [TypeError] where a step reads a member of [undefined]
    or [null]. *)
Fixpoint js_path (v : jsval) (ks : list string) : option jsval :=
  match ks with
  | [] => Some v
  | k :: ks' =>
      match js_member v k with
      | Some w => js_path w ks'
      | None => None
      end
  end.

Definition TypeError : Thrown := Error "Cannot read properties of undefined".

Definition read_path (v : jsval) (ks : list string) : M jsval :=
  match js_path v ks with
  | Some x => mret x
  | None => throw TypeError
  end.

(** [await rateLimit(userId)] against the world's counter store. *)
Definition await_rateLimit (env : Env) (uid : string) : M RateLimit.RateLimitResult :=
  λ w,
    let '(r, db) := RateLimit.rateLimit uid (clock env) (random env) (redis_up env) (rate w) in
    (inr r, set_rate uid db w).

(** [await updateWalletBalance(userId, delta, description)] *)
Definition updateWalletBalance (uid : option string) (d : Z) (desc : string) : M unit :=
  modify (db_updateWalletBalance uid d desc).

(** [await getWalletByApiKey(apiKey)] *)
Definition getWalletByApiKey (apiKey : string) : M (option Wallet) :=
  gets (db_getWalletByApiKey apiKey).

(** The members of an object literal whose value is not [undefined]. *)
Definition member (k : string) (v : jsval) : list (string * json) :=
  match v with
  | Some x => [(k, x)]
  | None => []
  end.

(** The body posted to the provider. *)
Definition completion_request (messages : list json) (model : string)
    (temperature max_tokens : option Z) (stream : option bool) : json :=
  JObj ([("messages", JArr messages); ("model", JStr model)]
        ++ member "temperature" (JNum <$> temperature)
        ++ member "max_tokens" (JNum <$> max_tokens)
        ++ member "stream" (JBool <$> stream)).

Definition completions_url (cfg : Config) (deploymentName : string) : string :=
  default "undefined" (AZURE_OPENAI_ENDPOINT cfg) +:+ "/openai/deployments/"
    +:+ deploymentName +:+ "/chat/completions".

(** [`Chat completion (${model})`] *)
Definition debit_description (model : string) : string :=
  "Chat completion (" +:+ model +:+ ")".

(** The provider answered some call of this request with HTTP status [st]. *)
Definition upstream_answered (env : Env) (st : Z) : Prop :=
  ∃ url payload e,
    (axios_json env url payload = Rejected e ∨ axios_stream env url payload = Rejected e)
    ∧ fst <$> ax_response e = Some st.

(** The error [e] is the provider's answer to some call of this request. *)
Definition from_upstream (env : Env) (e : AxiosError) : Prop :=
  ∃ url payload,
    axios_json env url payload = Rejected e ∨ axios_stream env url payload = Rejected e.

(** An outcome of a step started in [w] that made no call of [rateLimit],
    left the counter store alone, threw no Axios error but the provider's,
    and whose result satisfies [ok]. *)
Definition calm {A} (env : Env) (w : World) (ok : A → World → Prop)
    (o : (Thrown + A) * World) : Prop :=
  match o with
  | (inr x, w') => rate_calls w' = rate_calls w ∧ rate w' = rate w ∧ ok x w'
  | (inl (Error _), w') => rate_calls w' = rate_calls w ∧ rate w' = rate w
  | (inl (AxiosFailure e), w') =>
      rate_calls w' = rate_calls w ∧ rate w' = rate w ∧ from_upstream env e
  end.

(** ** src/app/api/chat/route.ts, lines 1-141: the first handler *)

Module LegacyRoute.
Section Handler.

(** [calculateCost] of [@/lib/pricing] is not among the sources: the handler
    is stated for any pricing function of the model and of the token count it
    is given. *)
Variable calculateCost : string → jsval → Z.
Variable cfg : Config.

Definition validateConfig : M unit :=
  if negb (nonempty (AZURE_OPENAI_ENDPOINT cfg)) || negb (nonempty (AZURE_OPENAI_API_KEY cfg))
  then throw (Error "Missing required Azure configuration")
  else mret tt.

Definition getDeploymentName (model : string) : M string :=
  match MODEL_DEPLOYMENTS cfg model with
  | Some deploymentName =>
      if String.eqb deploymentName "" then throw (Error ("Unsupported model: " +:+ model))
      else mret deploymentName
  | None => throw (Error ("Unsupported model: " +:+ model))
  end.

(** The [try] block of [POST]. *)
Definition POST_try (env : Env) (request : Request) : M Response :=
  validateConfig;;
  match json_body request with
  | None => throw (Error "Unexpected end of JSON input")
  | Some b =>
      let model := default "gpt-4o" (model b) in
      if negb (nonempty (api_key request)) then
        mret (error_response 401 (JStr "API key is required"))
      else
        let apiKey := default "" (api_key request) in
        wallet ← getWalletByApiKey apiKey;
        match wallet with
        | None => mret (error_response 401 (JStr "Invalid API key"))
        | Some wallet =>
            allowed ←
              (if has_userId wallet then
                 RateLimit.success <$> await_rateLimit env (userId_text wallet)
               else mret true);
            if negb allowed then
              mret (error_response 429 (JStr "Rate limit exceeded. Please try again later."))
            else
              deployment ← try_catch (Some <$> getDeploymentName model) (λ _, mret None);
              match deployment with
              | None => mret (error_response 400 (JStr "Invalid model specified"))
              | Some deploymentName =>
                  data ← await_axios
                    (axios_json env (completions_url cfg deploymentName)
                       (completion_request (messages b) model (temperature b)
                          (max_tokens b) None));
                  tokensUsed ← read_path (Some data) ["usage"; "total_tokens"];
                  let cost := calculateCost model tokensUsed in
                  if bool_decide (balance wallet < cost) then
                    mret (error_response 402 (JStr "Insufficient funds"))
                  else
                    updateWalletBalance (userId wallet) (- cost) (debit_description model);;
                    mret (json_response 200
                            (JObj (obj_set "remainingBalance" (JNum (balance wallet - cost))
                                     (obj_set "cost" (JNum cost) (js_spread data)))))
              end
        end
  end.

(** The [catch] block of [POST]. *)
Definition POST_catch (e : Thrown) : Response :=
  match e with
  | AxiosFailure err =>
      let message :=
        js_opt_member
          (js_opt_member (mjoin (snd <$> ax_response err)) "error") "message" in
      let st := default 0 (fst <$> ax_response err) in
      error_response (if st =? 0 then 500 else st)
        (if truthy message then default JNull message
         else JStr "Failed to process chat request")
  | Error _ => error_response 500 (JStr "An internal error occurred")
  end.

Definition POST (env : Env) (request : Request) (w : World) : Response * World :=
  match POST_try env request w with
  | (inr response, w') => (response, w')
  | (inl e, w') => (POST_catch e, w')
  end.

End Handler.
End LegacyRoute.

(** ** src/app/api/chat/route.ts, lines 142-414: the second handler *)

Module ChatRoute.

Definition CACHE_TTL : Z := 3600.
Definition WALLET_CACHE_TTL : Z := 300.

(** The object [{ messages, model, temperature, max_tokens }] as
    [JSON.stringify] sees it: a member that is [undefined] is left out. *)
Definition cache_payload (messages : list json) (model : string)
    (temperature max_tokens : option Z) : json :=
  JObj ([("messages", JArr messages); ("model", JStr model)]
        ++ member "temperature" (JNum <$> temperature)
        ++ member "max_tokens" (JNum <$> max_tokens)).

Definition generateCacheKey (messages : list json) (model : string)
    (temperature max_tokens : option Z) : string :=
  let data := JSON_stringify (cache_payload messages model temperature max_tokens) in
  MD5.md5_hex data.

(** [`data: ${payload}\n\n`] *)
Definition sse_frame (payload : string) : string :=
  "data: " +:+ payload +:+ String LF (String LF EmptyString).

(** [await redis.get(key)] *)
Definition redis_get (env : Env) (key : string) : M (option string) := λ w,
  if redis_up env then
    match redis w !! key with
    | Some (value, expires) =>
        (inr (if bool_decide (clock env < expires) then Some value else None), w)
    | None => (inr None, w)
    end
  else (inl (Error "Connection is closed."), w).

(** [await redis.setex(key, seconds, value)] *)
Definition redis_setex (env : Env) (key : string) (seconds : Z) (value : string)
    : M unit := λ w,
  if redis_up env then
    (inr tt, set_redis (insert key (value, clock env + seconds * 1000)) w)
  else (inl (Error "Connection is closed."), w).

Section Handler.

(** [calculateCost] of [@/lib/pricing] is not among the sources, and
    [JSON.parse] is the language's: the handler is stated for any pricing
    function and any parser. *)
Variable calculateCost : string → jsval → Z.
Variable JSON_parse : string → option json.
Variable cfg : Config.

(** [walletCache] holds the wallet object it was given, and the handlers
    never assign to a field of a wallet: an entry changes only when
    [walletCache.set] replaces it. *)
Definition getCachedWallet (env : Env) (apiKey : string) : M (option Wallet) :=
  cachedWallet ← gets (λ w, walletCache w !! apiKey);
  let fresh :=
    match cachedWallet with
    | Some (data, timestamp) =>
        if bool_decide (clock env - timestamp < WALLET_CACHE_TTL * 1000)
        then Some data else None
    | None => None
    end in
  match fresh with
  | Some data => mret (Some data)
  | None =>
      wallet ← getWalletByApiKey apiKey;
      match wallet with
      | Some x => modify (set_walletCache (insert apiKey (x, clock env)));; mret wallet
      | None => mret wallet
      end
  end.

Definition parseSSEResponse (chunk : string) : list json :=
  let lines := split_lines chunk in
  fold_left
    (λ parsedLines line,
       match strip_prefix "data: " line with
       | Some jsonStr =>
           if String.eqb jsonStr "[DONE]" then parsedLines
           else
             match JSON_parse jsonStr with
             | Some parsed => parsedLines ++ [parsed]
             | None => parsedLines
             end
       | None => parsedLines
       end)
    lines [].

Definition validateRequest (env : Env) (apiKey model : string) : M (Wallet * string) :=
  wallet ← getCachedWallet env apiKey;
  match wallet with
  | None => throw (Error "Invalid API key")
  | Some wallet =>
      rateLimitResult_success ←
        (if has_userId wallet then
           RateLimit.success <$> await_rateLimit env (userId_text wallet)
         else mret true);
      let deploymentName := MODEL_DEPLOYMENTS cfg model in
      if negb rateLimitResult_success then throw (Error "Rate limit exceeded")
      else if negb (nonempty deploymentName) then throw (Error "Invalid model specified")
      else mret (wallet, default "" deploymentName)
  end.

(** What the re-emitter holds while the stream drains: [lastChunk] and what
    it wrote to the response so far. *)
Record Emitter := { lastChunk : jsval; written : list string }.

(** [response.data.on('data', ...)], for one chunk. *)
Definition on_data (em : Emitter) (chunk : string) : Emitter :=
  fold_left
    (λ em item,
       {| lastChunk := Some item;
          written := written em ++ [sse_frame (JSON_stringify item)] |})
    (parseSSEResponse chunk) em.

(** [response.data.on('end', ...)] *)
Definition on_end (wallet : Wallet) (model : string) (em : Emitter) : M (list string) :=
  (if truthy (js_opt_member (lastChunk em) "usage") then
     let cost :=
       calculateCost model
         (mjoin (js_path (lastChunk em) ["usage"; "total_tokens"])) in
     updateWalletBalance (userId wallet) (- cost) (debit_description model)
   else mret tt);;
  mret (written em ++ [sse_frame "[DONE]"]).

(** The chunks of the upstream stream through the two listeners, one event
    after the other: a listener has made its writes when the next event is
    handled. *)
Definition reemit (wallet : Wallet) (model : string) (chunks : list string)
    : M (list string) :=
  on_end wallet model
    (fold_left on_data chunks {| lastChunk := Some JNull; written := [] |}).

Definition stream_response (frames : list string) : Response :=
  {| status := 200;
     headers := CORS_HEADERS ++ [("Content-Type", "text/event-stream");
                                 ("Cache-Control", "no-cache");
                                 ("Connection", "keep-alive")];
     body := BodyStream frames |}.

(** The cache lookup of a non-streaming request: the response when the
    fingerprint is cached, [None] to go on with the live call. *)
Definition POST_cached (env : Env) (apiKey model : string) (b : ChatBody)
    : M (option Response) :=
  let cacheKey := generateCacheKey (messages b) model (temperature b) (max_tokens b) in
  cachedResponse ← redis_get env cacheKey;
  if nonempty cachedResponse then
    match JSON_parse (default "" cachedResponse) with
    | None => throw (Error "Unexpected token in JSON")
    | Some parsed =>
        '(wallet, _) ← validateRequest env apiKey model;
        tokens ← read_path (Some parsed) ["usage"; "total_tokens"];
        let cost := calculateCost model tokens in
        if bool_decide (balance wallet < cost) then
          mret (Some (error_response 402 (JStr "Insufficient funds")))
        else
          mret (Some (json_response 200
                        (JObj (obj_set "cached" (JBool true)
                                 (obj_set "remainingBalance" (JNum (balance wallet - cost))
                                    (obj_set "cost" (JNum cost) (js_spread parsed)))))))
    end
  else mret None.

(** The streaming call. The response carries the frames in the order they
    are written, and the world is the one left when the stream has drained. *)
Definition POST_stream (env : Env) (wallet : Wallet) (deploymentName model : string)
    (b : ChatBody) : M Response :=
  chunks ← await_axios
    (axios_stream env (completions_url cfg deploymentName)
       (completion_request (messages b) model (temperature b) (max_tokens b) (Some true)));
  frames ← reemit wallet model chunks;
  mret (stream_response frames).

(** The buffered call. *)
Definition POST_live (env : Env) (apiKey : string) (wallet : Wallet)
    (deploymentName model : string) (b : ChatBody) : M Response :=
  completionResponse ← await_axios
    (axios_json env (completions_url cfg deploymentName)
       (completion_request (messages b) model (temperature b) (max_tokens b) (Some false)));
  tokens ← read_path (Some completionResponse) ["usage"; "total_tokens"];
  let cost := calculateCost model tokens in
  updateWalletBalance (userId wallet) (- cost) (debit_description model);;
  redis_setex env ("wallet:" +:+ apiKey) WALLET_CACHE_TTL
    (JSON_stringify
       (wallet_json {| userId := userId wallet; balance := balance wallet - cost |}));;
  let cacheKey := generateCacheKey (messages b) model (temperature b) (max_tokens b) in
  redis_setex env cacheKey CACHE_TTL (JSON_stringify completionResponse);;
  mret (json_response 200
          (JObj (obj_set "remainingBalance" (JNum (balance wallet - cost))
                   (obj_set "cost" (JNum cost) (js_spread completionResponse))))).

(** The [try] block of [POST]. *)
Definition POST_try (env : Env) (request : Request) : M Response :=
  match json_body request with
  | None => throw (Error "Unexpected end of JSON input")
  | Some b =>
      let model := default "gpt-4o" (model b) in
      let stream := default false (stream b) in
      if negb (nonempty (api_key request)) then
        mret (error_response 401 (JStr "API key is required"))
      else
        let apiKey := default "" (api_key request) in
        hit ← (if negb stream then POST_cached env apiKey model b else mret None);
        match hit with
        | Some response => mret response
        | None =>
            '(wallet, deploymentName) ← validateRequest env apiKey model;
            if stream then POST_stream env wallet deploymentName model b
            else POST_live env apiKey wallet deploymentName model b
        end
  end.

(** The [catch] block of [POST]: [error.message || "An internal error
    occurred"] with status [error.response?.status || 500]. *)
Definition POST_catch (e : Thrown) : Response :=
  let message :=
    match e with
    | Error m => m
    | AxiosFailure err => ax_message err
    end in
  let st :=
    match e with
    | Error _ => 0
    | AxiosFailure err => default 0 (fst <$> ax_response err)
    end in
  error_response (if st =? 0 then 500 else st)
    (JStr (if String.eqb message "" then "An internal error occurred" else message)).

Definition POST (env : Env) (request : Request) (w : World) : Response * World :=
  match POST_try env request w with
  | (inr response, w') => (response, w')
  | (inl e, w') => (POST_catch e, w')
  end.

End Handler.
End ChatRoute.

(** ** A deployment to evaluate the handlers on

    The end-to-end example of the specification: API key [k1] with balance
    10.000, model [gpt-4o], a completion that used 100 tokens, and a pricing
    function that charges 0.050 for them. *)

Module Scenario.

(** Half a thousandth per token. *)
Definition pricing (model : string) (tokens : jsval) : Z :=
  match tokens with
  | Some (JNum n) => n / 2
  | _ => 0
  end.

Definition cfg : Config :=
  {| AZURE_OPENAI_ENDPOINT := Some "https://azure.example";
     AZURE_OPENAI_API_KEY := Some "secret";
     AZURE_GPT4_DEPLOYMENT_NAME := Some "dep-gpt4";
     AZURE_OPENAI_DEPLOYMENT_NAME := Some "dep-gpt4o";
     AZURE_GPT35_DEPLOYMENT_NAME := Some "dep-gpt35" |}.

Definition world_with (w : Wallet) : World :=
  {| wallets := {[ "k1" := w ]}; ledger := []; walletCache := ∅; redis := ∅;
     rate := ∅; rate_calls := [] |}.

Definition world0 : World := world_with {| userId := Some "u1"; balance := 10000 |}.

Definition completion (tokens : Z) : json :=
  JObj [("id", JStr "chatcmpl-1"); ("usage", JObj [("total_tokens", JNum tokens)])].

(** The provider answers every buffered call with a completion of [tokens]
    tokens and every streaming call with [chunks]. *)
Definition env_at (t : Z) (tokens : Z) (chunks : list string) : Env :=
  {| clock := t; random := "0.5"; redis_up := true;
     axios_json := λ _ _, Resolved (completion tokens);
     axios_stream := λ _ _, Resolved chunks |}.

Definition hello : json := JObj [("role", JStr "user"); ("content", JStr "hello")].
Definition again : json := JObj [("role", JStr "user"); ("content", JStr "again")].

Definition chat (key : option string) (model : option string) (msg : json)
    (streaming : option bool) : Request :=
  {| api_key := key;
     json_body := Some {| messages := [msg]; model := model; temperature := None;
                          max_tokens := None; stream := streaming |} |}.

(** The second handler and the first one, on this deployment. *)
Definition POST := ChatRoute.POST pricing JSON_parse_text cfg.
Definition legacy_POST := LegacyRoute.POST pricing cfg.

(** A string between double quotes, and a [data:] line with its line feeds. *)
Definition q (s : string) : string := String dquote (s +:+ String dquote EmptyString).
Definition data_line (payload : string) : string :=
  "data: " +:+ payload +:+ String LF (String LF EmptyString).

Definition delta_chunk : string :=
  data_line ("{" +:+ q "choices" +:+ ":[{" +:+ q "delta" +:+ ":" +:+ q "Hi" +:+ "}]}").
Definition usage_chunk : string :=
  data_line ("{" +:+ q "usage" +:+ ":{" +:+ q "total_tokens" +:+ ":100}}").

(** The first request: a live call, billed 0.050. *)
Definition first_call : Response * World :=
  POST (env_at 1000 100 []) (chat (Some "k1") (Some "gpt-4o") hello None) world0.

(** The world in which account [u1] has used its 60 requests of the window. *)
Definition exhausted : World :=
  {| wallets := wallets world0; ledger := []; walletCache := ∅; redis := ∅;
     rate := (RateLimit.rateLimit_seq "u1" (burst 1000 60) ∅).2; rate_calls := [] |}.

End Scenario.

(** ** The stream as the specification describes it

    "Parses each SSE frame ([data: <json>] lines ...), and for each
    well-formed frame immediately forwards an equivalent frame to the
    caller, preserving arrival order." These definitions follow those words;
    the properties compare them with [ChatRoute.reemit]. *)

(** The payload of a line, when the line is a well-formed frame. *)
Definition data_frame (JSON_parse : string → option json) (line : string) : option json :=
  match strip_prefix "data: " line with
  | Some jsonStr => if String.eqb jsonStr "[DONE]" then None else JSON_parse jsonStr
  | None => None
  end.



(** The frame forwarded for a parsed payload. *)
Definition forwarded (item : json) : string :=
  ChatRoute.sse_frame (JSON_stringify item).

(** [frame.usage] is truthy: the frame carries a usage record. *)
Definition carries_usage (frame : json) : bool :=
  truthy (js_opt_member (Some frame) "usage").


(** ** src/lib/rate-limit.ts: [getRateLimitHeaders] *)


(** Every score the counter store holds is a second of a non-negative clock. *)
Definition scores_nonneg (db : gmap string (gmap string Z * Z)) : Prop :=
  ∀ key z expires m s, db !! key = Some (z, expires) → z !! m = Some s → 0 ≤ s.

(** ** Outcomes of a handler step *)

(** What [m] started in [w] ends with: [ok] holds of its result and of the
    world it leaves, or [err] of what it throws and of the world it leaves. *)
Definition post {A} (m : M A) (w : World) (ok : A → World → Prop)
    (err : Thrown → World → Prop) : Prop :=
  match m w with
  | (inr x, w') => ok x w'
  | (inl e, w') => err e w'
  end.

(** ** Worlds that differ in Redis only *)

(** Two worlds that hold the same store, ledger, wallet cache and counters:
    they may differ in the string keys of Redis. *)
Definition same_but_redis (w1 w2 : World) : Prop :=
  wallets w1 = wallets w2 ∧ ledger w1 = ledger w2 ∧ walletCache w1 = walletCache w2 ∧
  rate w1 = rate w2 ∧ rate_calls w1 = rate_calls w2.

(** Two outcomes with the same result, or the same exception, that leave
    worlds differing in Redis only. *)
Definition agree {A} (o1 o2 : (Thrown + A) * World) : Prop :=
  o1.1 = o2.1 ∧ same_but_redis o1.2 o2.2.

(** A step that reads nothing of the string keys of Redis. *)
Definition blind {A} (m : M A) : Prop :=
  ∀ w1 w2, same_but_redis w1 w2 → agree (m w1) (m w2).

(** ** src/app/dashboard/client.tsx: the pages of the transaction list *)

Module Dashboard.

(** [transactionsData ? Math.ceil((transactionsData.totalCount || 0) / 10) : 0],
    for [transactionsData] undefined or an object whose [totalCount] is
    undefined or a count. *)
Definition totalPages (transactionsData : option (option Z)) : Z :=
  match transactionsData with
  | Some totalCount => - (- default 0 totalCount / 10)
  | None => 0
  end.

Inductive Button := Previous | Next.

(** [disabled={page === 1}] and [disabled={page >= totalPages}] *)
Definition disabled (totalPages page : Z) (button : Button) : bool :=
  match button with
  | Previous => page =? 1
  | Next => totalPages <=? page
  end.

(** [setPage(page > 1 ? page - 1 : 1)] and [setPage(page + 1)] *)
Definition onClick (page : Z) (button : Button) : Z :=
  match button with
  | Previous => if 1 <? page then page - 1 else 1
  | Next => page + 1
  end.

(** A click: a disabled button does not call its handler. *)
Definition click (totalPages page : Z) (button : Button) : Z :=
  if disabled totalPages page button then page else onClick page button.

End Dashboard.

(** ** Environments for the edge cases *)

(** [env] with Redis not answering. *)
Definition redis_down (env : Env) : Env :=
  {| clock := clock env; random := random env; redis_up := false;
     axios_json := axios_json env; axios_stream := axios_stream env |}.

(** [env] at another time and with another provider. *)
Definition later (t : Z) (provider : string → json → AxiosResult json) (env : Env) : Env :=
  {| clock := t; random := random env; redis_up := redis_up env;
     axios_json := provider; axios_stream := axios_stream env |}.

(** * Properties *)

(** ** Decimal numerals *)

Lemma all_digits_app (s1 s2 : string) :
  all_digits (s1 +:+ s2) = all_digits s1 && all_digits s2.
Proof.
  induction s1 as [|c s1 IH]; simpl; [done|].
  by rewrite IH, andb_assoc.
Qed.

Lemma string_of_uint_digits (d : Decimal.uint) :
  all_digits (NilEmpty.string_of_uint d) = true.
Proof. induction d; simpl; auto. Qed.

Lemma num_to_string_digits (n : Z) : 0 ≤ n → all_digits (num_to_string n) = true.
Proof.
  intros Hn. unfold num_to_string, Z.to_int.
  destruct n as [|p|p]; [done| |lia].
  simpl. unfold NilZero.string_of_uint.
  destruct (Pos.to_uint p); try done; apply string_of_uint_digits.
Qed.

(** A numeral followed by a dash determines what follows the dash. *)
Lemma digits_dash_inj (d1 d2 r1 r2 : string) :
  all_digits d1 = true → all_digits d2 = true →
  d1 +:+ "-" +:+ r1 = d2 +:+ "-" +:+ r2 → d1 = d2 ∧ r1 = r2.
Proof.
  revert d2. induction d1 as [|c d1 IH]; intros [|c2 d2] H1 H2 Heq; simpl in *.
  - by inversion Heq.
  - inversion Heq; subst. by apply andb_true_iff in H2 as [? _].
  - inversion Heq; subst. by apply andb_true_iff in H1 as [? _].
  - apply andb_true_iff in H1 as [_ H1]. apply andb_true_iff in H2 as [_ H2].
    inversion Heq; subst. destruct (IH d2 H1 H2) as [-> ->]; done.
Qed.

(** ** The sliding window *)

Section SlidingWindow.
Import RateLimit.

Variable userId : string.
Variable t0 : Z.
Hypothesis t0_nonneg : 0 ≤ t0.

Let key := "rate_limit:" +:+ userId.

Lemma zget_empty_later (db : RateDb) clock :
  zget key t0 db = ∅ → t0 ≤ clock → zget key clock db = ∅.
Proof.
  unfold zget. destruct (db !! key) as [[z e]|]; [|done].
  repeat case_bool_decide; try done; lia.
Qed.

Lemma burst_window_start (db : RateDb) :
  zget key t0 db = ∅ → burst_window userId t0 [] db.
Proof.
  intros He. unfold burst_window. fold key. intros clock [Hc _]. rewrite (zget_empty_later _ _ He Hc).
  split; [done|]. intros m s Hm. by rewrite lookup_empty in Hm.
Qed.

Lemma burst_second clock :
  t0 ≤ clock ≤ t0 + 1000 → t0 / 1000 ≤ clock / 1000 ≤ t0 / 1000 + 1.
Proof.
  intros [H1 H2]. split; [by apply Z.div_le_mono|].
  replace (t0 / 1000 + 1) with ((t0 + 1 * 1000) / 1000) by (rewrite Z.div_add; lia).
  apply Z.div_le_mono; lia.
Qed.

Lemma burst_window_step seen db clock random :
  burst_window userId t0 seen db → t0 ≤ clock ≤ t0 + 1000 → random ∉ seen →
  let '(r, db') := rateLimit userId clock random true db in
  success r = bool_decide (length seen < 60)%nat ∧
  remaining r = (if success r then 60 - Z.of_nat (length seen) else 0) ∧
  burst_window userId t0 (seen ++ [random]) db'.
Proof.
  intros Hinv Hc Hfresh. unfold rateLimit. fold key.
  unfold burst_window in Hinv. fold key in Hinv.
  destruct (Hinv clock Hc) as [Hsize Hmem].
  pose proof (burst_second clock Hc) as Hnow.
  set (now := clock / 1000) in *.
  assert (Hpurge : zremrangebyscore 0 (now - RATE_LIMIT_window) (zget key clock db)
                   = zget key clock db).
  { apply map_filter_id. intros m s Hm. destruct (Hmem m s Hm) as [Hs _].
    unfold RATE_LIMIT_window. simpl. lia. }
  rewrite Hpurge. unfold zcard. rewrite Hsize.
  assert (Hnew : zget key clock db !! (num_to_string now +:+ "-" +:+ random) = None).
  { destruct (zget key clock db !! _) as [s|] eqn:Hm; [|done].
    destruct (Hmem _ _ Hm) as [_ (n & r & Hn & Hr & Heq)].
    apply digits_dash_inj in Heq as [_ ->]; [done|..];
      apply num_to_string_digits; [|done].
    assert (0 ≤ t0 / 1000) by (apply Z.div_pos; lia). lia. }
  assert (Hinv' : burst_window userId t0 (seen ++ [random])
    (<[key := (zadd now (num_to_string now +:+ "-" +:+ random) (zget key clock db),
               clock + RATE_LIMIT_window * 1000)]> db)).
  { unfold burst_window. fold key. intros c' Hc'. unfold zget at 1 3. rewrite lookup_insert_eq.
    unfold RATE_LIMIT_window. rewrite bool_decide_eq_true_2 by lia.
    unfold zadd. split.
    - rewrite map_size_insert_None by done. rewrite Hsize, length_app. simpl. lia.
    - intros m s. rewrite lookup_insert. case_decide as Hd.
      + intros [= <-]. subst m. split; [lia|].
        exists now, random. split; [|split; [set_solver|done]].
        assert (0 ≤ t0 / 1000) by (apply Z.div_pos; lia). lia.
      + intros Hm. destruct (Hmem _ _ Hm) as [Hs (n & r & Hn & Hr & Heq)].
        split; [done|]. exists n, r. split; [done|]. split; [set_solver|done]. }
  unfold RATE_LIMIT_requests.
  case_bool_decide as Hfull; simpl.
  - rewrite bool_decide_eq_false_2 by lia. done.
  - rewrite bool_decide_eq_true_2 by lia. done.
Qed.

Lemma burst_window_run calls : ∀ seen db,
  burst_window userId t0 seen db →
  Forall (λ c : Z * string, t0 ≤ c.1 ≤ t0 + 1000) calls →
  NoDup (seen ++ calls.*2) →
  success <$> (rateLimit_seq userId calls db).1 =
    (λ k, bool_decide (k < 60)%nat) <$> seq (length seen) (length calls).
Proof.
  induction calls as [|[clock random] calls IH]; intros seen db Hinv Hr Hnd; [done|].
  apply Forall_cons in Hr as [Hc Hr]. simpl in Hc.
  assert (Hfresh : random ∉ seen).
  { apply NoDup_app in Hnd as (_ & Hd & _). intros Hin. apply (Hd _ Hin). set_solver. }
  pose proof (burst_window_step seen db clock random Hinv Hc Hfresh) as Hstep.
  simpl. destruct (rateLimit userId clock random true db) as [r db1].
  destruct Hstep as (Hs & _ & Hinv1).
  specialize (IH (seen ++ [random]) db1 Hinv1 Hr).
  destruct (rateLimit_seq userId calls db1) as [rs db2]. simpl in *.
  rewrite Hs. f_equal. change (list_fmap _ _ ?f ?l) with (f <$> l).
  rewrite IH.
  - rewrite length_app. simpl. by replace (length seen + 1)%nat with (S (length seen)) by lia.
  - rewrite <- app_assoc. exact Hnd.
Qed.



End SlidingWindow.



(** What an allowed call reports as [remaining]: the quota minus the entries
    that survive the purge, the new entry not counted. *)
Lemma rateLimit_allowed_remaining userId clock random db :
  RateLimit.success (RateLimit.rateLimit userId clock random true db).1 = true →
  RateLimit.remaining (RateLimit.rateLimit userId clock random true db).1
    = 60 - RateLimit.window_count userId clock db.
Proof.
  unfold RateLimit.rateLimit, RateLimit.window_count.
  case_bool_decide; simpl; [done|]. intros _. reflexivity.
Qed.

(** C6, on the code: the first call of an account finds no entry
    ([count = 0]) and is told [remaining = 60], where [60 - count - 1] is 59. *)
Lemma C6_first_call_remaining :
  RateLimit.window_count "acct" 5000 ∅ = 0 ∧
  RateLimit.success (RateLimit.rateLimit "acct" 5000 "0.25" true ∅).1 = true ∧
  RateLimit.remaining (RateLimit.rateLimit "acct" 5000 "0.25" true ∅).1 = 60.
Proof. vm_compute. done. Qed.

(** The 60th call of a burst is told that one request remains, and the next
    call is refused. *)
Lemma rateLimit_remaining_one_then_refused :
  (λ r, (RateLimit.success r, RateLimit.remaining r))
    <$> drop 59 (RateLimit.rateLimit_seq "acct" (burst 5000 61) ∅).1
  = [(true, 1); (false, 0)].
Proof. vm_compute. reflexivity. Qed.

(** ** The second handler on the end-to-end example *)

Section EndToEnd.
Import Scenario.

Lemma first_call_billed :
  body first_call.1 =
    BodyJson (JObj [("id", JStr "chatcmpl-1");
                    ("usage", JObj [("total_tokens", JNum 100)]);
                    ("cost", JNum 50); ("remainingBalance", JNum 9950)]) ∧
  ledger first_call.2 =
    [{| accountId := Some "u1"; delta := -50;
        description := "Chat completion (gpt-4o)" |}] ∧
  wallets first_call.2 !! "k1" = Some {| userId := Some "u1"; balance := 9950 |}.
Proof. vm_compute. done. Qed.

(** C1, on the code: the same request a second later is answered from the
    response cache with the same cost, and nothing is debited: the ledger and
    the balance are those the first call left. *)
Lemma C1_cache_hit_not_debited :
  let again := POST (env_at 2000 100 []) (chat (Some "k1") (Some "gpt-4o") hello None)
                 first_call.2 in
  body again.1 =
    BodyJson (JObj [("id", JStr "chatcmpl-1");
                    ("usage", JObj [("total_tokens", JNum 100)]);
                    ("cost", JNum 50); ("remainingBalance", JNum 9950);
                    ("cached", JBool true)]) ∧
  ledger again.2 = ledger first_call.2 ∧
  wallets again.2 = wallets first_call.2.
Proof. vm_compute. done. Qed.

(** C2, on the code: balance 0.001 and a live call that costs 1.000. The
    second handler answers 200 and debits; the first one answers 402 and
    leaves the ledger alone. *)
Lemma C2_live_call_overdraws :
  let poor := world_with {| userId := Some "u1"; balance := 1 |} in
  let request := chat (Some "k1") (Some "gpt-4o") hello None in
  let r := POST (env_at 1000 2000 []) request poor in
  let r0 := legacy_POST (env_at 1000 2000 []) request poor in
  status r.1 = 200 ∧
  ledger r.2 = [{| accountId := Some "u1"; delta := -1000;
                   description := "Chat completion (gpt-4o)" |}] ∧
  wallets r.2 !! "k1" = Some {| userId := Some "u1"; balance := -999 |} ∧
  status r0.1 = 402 ∧ ledger r0.2 = [] ∧ wallets r0.2 = wallets poor.
Proof. vm_compute. done. Qed.

(** C3, on the code: after the first call the post-debit wallet sits under
    the Redis key [wallet:k1], which nothing reads; the [walletCache] entry
    still holds 10.000, and a second live call a second later computes its
    [remainingBalance] from it. *)
Lemma C3_wallet_cache_stale :
  let next := POST (env_at 2000 100 []) (chat (Some "k1") (Some "gpt-4o") again None)
                first_call.2 in
  walletCache first_call.2 !! "k1" = Some ({| userId := Some "u1"; balance := 10000 |}, 1000) ∧
  (ChatRoute.getCachedWallet (env_at 2000 100 []) "k1" first_call.2).1
    = inr (Some {| userId := Some "u1"; balance := 10000 |}) ∧
  wallets first_call.2 !! "k1" = Some {| userId := Some "u1"; balance := 9950 |} ∧
  body next.1 =
    BodyJson (JObj [("id", JStr "chatcmpl-1");
                    ("usage", JObj [("total_tokens", JNum 100)]);
                    ("cost", JNum 50); ("remainingBalance", JNum 9950)]) ∧
  wallets next.2 !! "k1" = Some {| userId := Some "u1"; balance := 9900 |}.
Proof. vm_compute. done. Qed.

(** C4, on the code: an unknown key, an exhausted quota and an unmapped
    model are answered 500 by the second handler, and 401, 429 and 400 by the
    first one. *)
Lemma C4_second_handler_answers_500 :
  let env := env_at 1000 100 [] in
  let unknown_key := chat (Some "k0") (Some "gpt-4o") hello None in
  let known := chat (Some "k1") (Some "gpt-4o") hello None in
  let unmapped := chat (Some "k1") (Some "gpt-5") hello None in
  ((POST env unknown_key world0).1 = error_response 500 (JStr "Invalid API key") ∧
   (POST env known exhausted).1 = error_response 500 (JStr "Rate limit exceeded") ∧
   (POST env unmapped world0).1 = error_response 500 (JStr "Invalid model specified")) ∧
  ((legacy_POST env unknown_key world0).1 = error_response 401 (JStr "Invalid API key") ∧
   (legacy_POST env known exhausted).1
     = error_response 429 (JStr "Rate limit exceeded. Please try again later.") ∧
   (legacy_POST env unmapped world0).1
     = error_response 400 (JStr "Invalid model specified")).
Proof. vm_compute. done. Qed.

End EndToEnd.

(** ** Handlers: which stores a step touches *)

Ltac unfold_M :=
  repeat (unfold mbind, mret, fmap, M_bind, M_ret, M_fmap, throw, modify, gets,
            try_catch, await_axios, read_path, await_rateLimit, updateWalletBalance,
            getWalletByApiKey in * ).

Section Frames.
#[local] Arguments js_path : simpl never.

Lemma status_429_upstream env e url payload :
  (axios_json env url payload = Rejected e ∨ axios_stream env url payload = Rejected e) →
  (if default 0 (fst <$> ax_response e) =? 0 then 500
   else default 0 (fst <$> ax_response e)) = 429 →
  upstream_answered env 429.
Proof.
  intros Hax Hst. exists url, payload, e. split; [done|].
  destruct (ax_response e) as [[st d]|]; simpl in *; [|done].
  destruct (st =? 0); [done|by subst].
Qed.

Lemma legacy_no_userId cc cfg env request w apiKey wallet :
  api_key request = Some apiKey →
  has_userId wallet = false →
  db_getWalletByApiKey apiKey w = Some wallet →
  let r := LegacyRoute.POST cc cfg env request w in
  rate_calls r.2 = rate_calls w ∧ rate r.2 = rate w ∧
  (status r.1 = 429 → upstream_answered env 429).
Proof.
  intros Hk Hu Hw.
  unfold LegacyRoute.POST, LegacyRoute.POST_try, LegacyRoute.validateConfig,
    LegacyRoute.getDeploymentName, LegacyRoute.POST_catch.
  unfold_M. rewrite Hk. simpl.
  destruct (negb (nonempty _) || _); simpl; [done|].
  destruct (json_body request) as [b|]; simpl; [|done].
  destruct (negb (negb _)); simpl; [done|].
  rewrite Hw, Hu. simpl.
  destruct (MODEL_DEPLOYMENTS _ _) as [d|]; simpl; [|done].
  destruct (String.eqb d ""); simpl; [done|].
  destruct (axios_json env _ _) as [data|e] eqn:Hax; simpl.
  - destruct (js_path _ _); simpl; [|done]. case_bool_decide; simpl; done.
  - split_and!; try done. intros Hst. eapply status_429_upstream; eauto.
Qed.

Lemma getCachedWallet_frame env apiKey w :
  ∃ x cache, ChatRoute.getCachedWallet env apiKey w
             = (inr x, set_walletCache (λ _, cache) w).
Proof.
  unfold ChatRoute.getCachedWallet. unfold_M.
  assert (Hid : w = set_walletCache (λ _, walletCache w) w) by (by destruct w).
  destruct (match walletCache w !! apiKey with
            | Some (data, ts) => _
            | None => None
            end) as [data|]; simpl.
  - exists (Some data), (walletCache w). by f_equal.
  - destruct (db_getWalletByApiKey apiKey w) as [x0|]; simpl.
    + by exists (Some x0), (<[apiKey:=(x0, clock env)]> (walletCache w)).
    + exists None, (walletCache w). by f_equal.
Qed.

(** For a wallet without [userId], [validateRequest] only looks the model up. *)
Lemma validateRequest_no_userId cfg env apiKey model w wallet :
  (ChatRoute.getCachedWallet env apiKey w).1 = inr (Some wallet) →
  has_userId wallet = false →
  ChatRoute.validateRequest cfg env apiKey model w =
    (if nonempty (MODEL_DEPLOYMENTS cfg model)
     then inr (wallet, default "" (MODEL_DEPLOYMENTS cfg model))
     else inl (Error "Invalid model specified"),
     (ChatRoute.getCachedWallet env apiKey w).2).
Proof.
  intros Hw Hu. unfold ChatRoute.validateRequest.
  unfold mbind at 1. unfold M_bind.
  destruct (ChatRoute.getCachedWallet env apiKey w) as [o w1]. simpl in *. subst o.
  rewrite Hu. unfold_M. simpl. by destruct (nonempty _).
Qed.

Section NoUserId.
Variable calculateCost : string → jsval → Z.
Variable JSON_parse : string → option json.
Variable cfg : Config.
Variable env : Env.
Variable apiKey : string.
Variable wallet : Wallet.
Variable w : World.
Variable cache : gmap string (Wallet * Z).

Let w1 := set_walletCache (λ _, cache) w.

Hypothesis validated : ∀ model,
  ChatRoute.validateRequest cfg env apiKey model w =
    (if nonempty (MODEL_DEPLOYMENTS cfg model)
     then inr (wallet, default "" (MODEL_DEPLOYMENTS cfg model))
     else inl (Error "Invalid model specified"), w1).

Lemma POST_cached_calm model b :
  calm env w (λ hit w', match hit with
                        | Some r => status r ≠ 429
                        | None => w' = w
                        end)
    (ChatRoute.POST_cached calculateCost JSON_parse cfg env apiKey model b w).
Proof.
  unfold ChatRoute.POST_cached, ChatRoute.redis_get, calm.
  unfold mbind at 1. unfold M_bind.
  destruct (redis_up env); [|done].
  set (hit := match redis w !! _ with Some _ => _ | None => _ end).
  assert (Hhit : ∃ c, hit = (inr c, w)).
  { unfold hit. destruct (redis w !! _) as [[v ex]|]; eauto. }
  destruct Hhit as [c ->].
  destruct (nonempty c); [|done].
  destruct (JSON_parse _); [|done].
  unfold mbind at 1. unfold M_bind. rewrite validated.
  destruct (nonempty (MODEL_DEPLOYMENTS _ _)); [|done].
  unfold_M. destruct (js_path _ _); simpl; [|done].
  case_bool_decide; simpl; done.
Qed.

Lemma POST_stream_calm deploymentName model b :
  calm env w (λ r _, status r ≠ 429)
    (ChatRoute.POST_stream calculateCost JSON_parse cfg env wallet deploymentName model b w1).
Proof.
  unfold ChatRoute.POST_stream, ChatRoute.reemit, ChatRoute.on_end, calm. unfold_M.
  destruct (axios_stream env _ _) as [chunks|e] eqn:Hax; simpl.
  - destruct (truthy _); simpl; done.
  - split_and!; try done. eexists _, _. eauto.
Qed.

Lemma POST_live_calm deploymentName model b :
  calm env w (λ r _, status r ≠ 429)
    (ChatRoute.POST_live calculateCost cfg env apiKey wallet deploymentName model b w1).
Proof.
  unfold ChatRoute.POST_live, ChatRoute.redis_setex, calm. unfold_M.
  destruct (axios_json env _ _) as [data|e] eqn:Hax; simpl.
  - destruct (js_path _ _); simpl; [|done]. destruct (redis_up env); simpl; done.
  - split_and!; try done. eexists _, _. eauto.
Qed.

Lemma POST_try_calm request :
  api_key request = Some apiKey →
  calm env w (λ r _, status r ≠ 429)
    (ChatRoute.POST_try calculateCost JSON_parse cfg env request w).
Proof.
  intros Hk. unfold ChatRoute.POST_try. rewrite Hk. simpl.
  destruct (json_body request) as [b|]; [|done].
  destruct (negb (negb _)); [done|].
  unfold mbind at 1. unfold M_bind.
  assert (Hmain : calm env w (λ r _, status r ≠ 429)
    ((ChatRoute.validateRequest cfg env apiKey (default "gpt-4o" (model b))
      ≫= λ '(wallet0, deploymentName),
        if default false (stream b)
        then ChatRoute.POST_stream calculateCost JSON_parse cfg env wallet0 deploymentName
               (default "gpt-4o" (model b)) b
        else ChatRoute.POST_live calculateCost cfg env apiKey wallet0 deploymentName
               (default "gpt-4o" (model b)) b) w)).
  { unfold mbind, M_bind. rewrite validated.
    destruct (nonempty (MODEL_DEPLOYMENTS _ _)); [|done].
    destruct (default false (stream b)); [apply POST_stream_calm|apply POST_live_calm]. }
  destruct (negb (default false (stream b))); [|exact Hmain].
  pose proof (POST_cached_calm (default "gpt-4o" (model b)) b) as Hc.
  destruct (ChatRoute.POST_cached _ _ _ _ _ _ _ _) as [[e|[r|]] w'];
    unfold calm in Hc; simpl in Hc.
  - exact Hc.
  - exact Hc.
  - destruct Hc as (_ & _ & ->). exact Hmain.
Qed.

End NoUserId.

Lemma second_no_userId cc jp cfg env request w apiKey wallet :
  api_key request = Some apiKey →
  has_userId wallet = false →
  (ChatRoute.getCachedWallet env apiKey w).1 = inr (Some wallet) →
  let r := ChatRoute.POST cc jp cfg env request w in
  rate_calls r.2 = rate_calls w ∧ rate r.2 = rate w ∧
  (status r.1 = 429 → upstream_answered env 429).
Proof.
  intros Hk Hu Hw.
  pose proof (λ model, validateRequest_no_userId cfg env apiKey model w wallet Hw Hu) as Hv.
  destruct (getCachedWallet_frame env apiKey w) as (x & cache & Hc).
  rewrite Hc in Hv. simpl in Hv.
  pose proof (POST_try_calm cc jp cfg env apiKey wallet w cache Hv request Hk) as Hcalm.
  unfold ChatRoute.POST.
  destruct (ChatRoute.POST_try cc jp cfg env request w) as [[[m|e]|r] w'];
    simpl in *.
  - destruct Hcalm as (Hcalls & Hrate). done.
  - destruct Hcalm as (Hcalls & Hrate & url & payload & Hax).
    split_and!; try done. intros Hst. by eapply status_429_upstream.
  - destruct Hcalm as (Hcalls & Hrate & Hok). done.
Qed.

End Frames.

(** C10: a request that authenticates as a wallet without [userId] makes no
    call of [rateLimit] and leaves the counter store as it was, in both
    handlers; it is answered 429 only if the provider itself answered 429. *)
Theorem C10_no_userId_never_rate_limited
    (calculateCost : string → jsval → Z) (JSON_parse : string → option json)
    (cfg : Config) (env : Env) (request : Request) (w : World)
    (apiKey : string) (wallet : Wallet) :
  api_key request = Some apiKey →
  has_userId wallet = false →
  (db_getWalletByApiKey apiKey w = Some wallet →
   let r := LegacyRoute.POST calculateCost cfg env request w in
   rate_calls r.2 = rate_calls w ∧ rate r.2 = rate w ∧
   (status r.1 = 429 → upstream_answered env 429)) ∧
  ((ChatRoute.getCachedWallet env apiKey w).1 = inr (Some wallet) →
   let r := ChatRoute.POST calculateCost JSON_parse cfg env request w in
   rate_calls r.2 = rate_calls w ∧ rate r.2 = rate w ∧
   (status r.1 = 429 → upstream_answered env 429)).
Proof.
  intros Hk Hu. split; intros Hw.
  - by eapply legacy_no_userId.
  - by eapply second_no_userId.
Qed.

Lemma C10_no_userId_never_rate_limited_witness :
  let request := Scenario.chat (Some "k1") (Some "gpt-4o") Scenario.hello None in
  let w := Scenario.world_with {| userId := None; balance := 10000 |} in
  let env := Scenario.env_at 1000 100 [] in
  let r0 := LegacyRoute.POST Scenario.pricing Scenario.cfg env request w in
  let r := ChatRoute.POST Scenario.pricing JSON_parse_text Scenario.cfg env request w in
  (rate_calls r0.2 = rate_calls w ∧ rate r0.2 = rate w ∧
   (status r0.1 = 429 → upstream_answered env 429)) ∧
  (rate_calls r.2 = rate_calls w ∧ rate r.2 = rate w ∧
   (status r.1 = 429 → upstream_answered env 429)).
Proof.
  destruct (C10_no_userId_never_rate_limited Scenario.pricing JSON_parse_text Scenario.cfg
              (Scenario.env_at 1000 100 [])
              (Scenario.chat (Some "k1") (Some "gpt-4o") Scenario.hello None)
              (Scenario.world_with {| userId := None; balance := 10000 |})
              "k1" {| userId := None; balance := 10000 |}) as [H0 H1].
  - reflexivity.
  - reflexivity.
  - split; [apply H0|apply H1]; reflexivity.
Defined.

(** ** What the second handler does on a cache hit and on a live call *)

Section SecondHandler.
Variable calculateCost : string → jsval → Z.
Variable JSON_parse : string → option json.
Variable cfg : Config.
#[local] Arguments js_path : simpl never.

Lemma getCachedWallet_books env apiKey w :
  ledger (ChatRoute.getCachedWallet env apiKey w).2 = ledger w ∧
  wallets (ChatRoute.getCachedWallet env apiKey w).2 = wallets w.
Proof.
  destruct (getCachedWallet_frame env apiKey w) as (x & cache & ->). done.
Qed.

Lemma validateRequest_books env apiKey model w :
  ledger (ChatRoute.validateRequest cfg env apiKey model w).2 = ledger w ∧
  wallets (ChatRoute.validateRequest cfg env apiKey model w).2 = wallets w.
Proof.
  remember (ChatRoute.validateRequest cfg env apiKey model w) as o eqn:Ho.
  unfold ChatRoute.validateRequest in Ho. unfold mbind at 1 in Ho. unfold M_bind in Ho.
  destruct (getCachedWallet_frame env apiKey w) as ([wallet|] & cache & Hc);
    rewrite Hc in Ho; [|by subst o].
  unfold_M. destruct (has_userId wallet); simpl in Ho.
  - destruct (RateLimit.rateLimit _ _ _ _ _) as [r db]. simpl in Ho.
    destruct (negb (RateLimit.success r)); simpl in Ho; [by subst o|].
    destruct (negb (nonempty _)); by subst o.
  - destruct (negb (nonempty _)); by subst o.
Qed.

(** The cache lookup never writes the ledger or a balance, hit or miss. *)
Lemma POST_cached_never_debits env apiKey model b w :
  ledger (ChatRoute.POST_cached calculateCost JSON_parse cfg env apiKey model b w).2
    = ledger w ∧
  wallets (ChatRoute.POST_cached calculateCost JSON_parse cfg env apiKey model b w).2
    = wallets w.
Proof.
  remember (ChatRoute.POST_cached calculateCost JSON_parse cfg env apiKey model b w)
    as o eqn:Ho.
  unfold ChatRoute.POST_cached, ChatRoute.redis_get in Ho.
  unfold mbind at 1 in Ho. unfold M_bind in Ho.
  destruct (redis_up env); [|by subst o].
  set (hit := match redis w !! _ with Some _ => _ | None => _ end) in Ho.
  assert (Hhit : ∃ c, hit = (inr c, w)).
  { unfold hit. destruct (redis w !! _) as [[v ex]|]; eauto. }
  destruct Hhit as [c Hc]. rewrite Hc in Ho. clear hit Hc.
  destruct (nonempty c); [|by subst o].
  destruct (JSON_parse _); [|by subst o].
  unfold mbind at 1 in Ho. unfold M_bind in Ho.
  pose proof (validateRequest_books env apiKey model w) as Hbooks.
  destruct (ChatRoute.validateRequest cfg env apiKey model w) as [[e|[wallet d]] w1];
    simpl in Hbooks; [by subst o|].
  unfold_M. destruct (js_path _ _); simpl in Ho; [|by subst o].
  case_bool_decide; by subst o.
Qed.

(** A buffered call that is answered is answered 200 and debited, whatever
    the balance of the wallet, and it leaves [walletCache] as it was. *)
Lemma POST_live_answer env apiKey wallet deploymentName model b w r w' :
  ChatRoute.POST_live calculateCost cfg env apiKey wallet deploymentName model b w
    = (inr r, w') →
  status r = 200 ∧
  (∃ cost, ledger w' = ledger w ++ [{| accountId := userId wallet; delta := - cost;
                                        description := debit_description model |}]) ∧
  walletCache w' = walletCache w.
Proof.
  unfold ChatRoute.POST_live, ChatRoute.redis_setex. unfold_M.
  destruct (axios_json env _ _) as [data|e]; simpl; [|done].
  destruct (js_path _ _) as [tokens|]; simpl; [|done].
  destruct (redis_up env); simpl; [|done].
  intros [= <- <-]. simpl. eauto.
Qed.

End SecondHandler.

(** ** The stream re-emitter *)

Section Reemitter.
Variable calculateCost : string → jsval → Z.
Variable JSON_parse : string → option json.
#[local] Arguments strip_prefix : simpl never.
#[local] Arguments String.eqb : simpl never.
#[local] Arguments js_path : simpl never.

Lemma parseSSEResponse_fold lines : ∀ acc,
  fold_left
    (λ parsedLines line,
       match strip_prefix "data: " line with
       | Some jsonStr =>
           if String.eqb jsonStr "[DONE]" then parsedLines
           else
             match JSON_parse jsonStr with
             | Some parsed => parsedLines ++ [parsed]
             | None => parsedLines
             end
       | None => parsedLines
       end)
    lines acc
  = acc ++ omap (data_frame JSON_parse) lines.
Proof.
  induction lines as [|line lines IH]; intros acc; simpl.
  - by rewrite app_nil_r.
  - rewrite IH. unfold data_frame at 2.
    destruct (strip_prefix "data: " line) as [jsonStr|]; [|done].
    destruct (String.eqb jsonStr "[DONE]"); [done|].
    destruct (JSON_parse jsonStr); [|done]. by rewrite <- app_assoc.
Qed.

Lemma parseSSEResponse_lines chunk :
  ChatRoute.parseSSEResponse JSON_parse chunk
  = omap (data_frame JSON_parse) (split_lines chunk).
Proof. unfold ChatRoute.parseSSEResponse. by rewrite parseSSEResponse_fold. Qed.

(** One chunk through the [data] listener: its frames are written in order,
    and the last of them, if any, becomes [lastChunk]. *)
Lemma on_data_frames em chunk :
  ChatRoute.on_data JSON_parse em chunk =
    let items := ChatRoute.parseSSEResponse JSON_parse chunk in
    {| ChatRoute.lastChunk :=
         match last items with Some f => Some f | None => ChatRoute.lastChunk em end;
       ChatRoute.written := ChatRoute.written em ++ (forwarded <$> items) |}.
Proof.
  unfold ChatRoute.on_data. simpl.
  generalize (ChatRoute.parseSSEResponse JSON_parse chunk) as items.
  intros items. revert em.
  induction items as [|item items IH]; intros em; simpl.
  - rewrite app_nil_r. by destruct em.
  - rewrite IH. simpl. f_equal.
    + rewrite last_cons. by destruct (last items).
    + by rewrite <- app_assoc.
Qed.

Lemma drain_frames chunks : ∀ em,
  fold_left (ChatRoute.on_data JSON_parse) chunks em =
    let items := chunks ≫= ChatRoute.parseSSEResponse JSON_parse in
    {| ChatRoute.lastChunk :=
         match last items with Some f => Some f | None => ChatRoute.lastChunk em end;
       ChatRoute.written := ChatRoute.written em ++ (forwarded <$> items) |}.
Proof.
  induction chunks as [|chunk chunks IH]; intros em; simpl.
  - rewrite app_nil_r. by destruct em.
  - rewrite IH, on_data_frames. simpl. f_equal.
    + rewrite last_app.
      change (list_bind _ _ ?f ?l) with (l ≫= f). by destruct (last (chunks ≫= _)).
    + change (list_bind _ _ ?f ?l) with (l ≫= f). by rewrite fmap_app, app_assoc.
Qed.

(** What [reemit] does, in terms of the frames parsed chunk by chunk. *)
Lemma reemit_frames wallet model chunks w :
  let items := chunks ≫= ChatRoute.parseSSEResponse JSON_parse in
  let lastChunk := default JNull (last items) in
  ChatRoute.reemit calculateCost JSON_parse wallet model chunks w =
    (inr ((forwarded <$> items) ++ [ChatRoute.sse_frame "[DONE]"]),
     if carries_usage lastChunk then
       db_updateWalletBalance (userId wallet)
         (- calculateCost model (mjoin (js_path (Some lastChunk) ["usage"; "total_tokens"])))
         (debit_description model) w
     else w).
Proof.
  unfold ChatRoute.reemit, ChatRoute.on_end. rewrite drain_frames. simpl.
  unfold carries_usage.
  destruct (last (chunks ≫= _)) as [f|]; simpl; [|done].
  unfold_M. by destruct (truthy _).
Qed.

End Reemitter.



(** *** Lines and chunks *)

Lemma append_cons (x : ascii) (a b : string) : String x a +:+ b = String x (a +:+ b).
Proof. reflexivity. Qed.

Lemma append_assoc (a b c : string) : (a +:+ b) +:+ c = a +:+ (b +:+ c).
Proof. induction a as [|x a IH]; [done|]. by rewrite !append_cons, IH. Qed.


Lemma split_lines_nonempty s : split_lines s ≠ [].
Proof.
  destruct s as [|c s]; simpl; [done|].
  destruct (Ascii.eqb c LF); [done|]. by destruct (split_lines s).
Qed.

(** Splitting at a line feed splits the list of lines. *)
Lemma split_lines_app_LF s1 s2 :
  split_lines (s1 +:+ String LF s2) = split_lines s1 ++ split_lines s2.
Proof.
  induction s1 as [|c s1 IH]; [done|].
  rewrite append_cons. cbn [split_lines]. rewrite IH.
  destruct (Ascii.eqb c LF); [done|].
  pose proof (split_lines_nonempty s1). by destruct (split_lines s1).
Qed.


Section Chunks.
Variable JSON_parse : string → option json.



End Chunks.


(** ** [JSON.stringify] can be read back *)




(** The numeral of a positive number does not start with a zero. *)
Lemma to_uint_no_leading_zero p d : Pos.to_uint p ≠ Decimal.D0 d.
Proof.
  intros Hp.
  pose proof (DecimalPos.Unsigned.to_of (Pos.to_uint p)) as Hn.
  rewrite DecimalPos.Unsigned.of_to in Hn. simpl in Hn.
  rewrite Hp in Hn. rewrite DecimalFacts.unorm_D0 in Hn.
  assert (Hd : d = Decimal.Nil ∨ d ≠ Decimal.Nil) by (destruct d; auto).
  destruct Hd as [->|Hd].
  - by apply (DecimalPos.Unsigned.to_uint_nonzero p).
  - pose proof (DecimalFacts.nb_digits_unorm d Hd) as Hlen.
    rewrite <- Hn in Hlen. simpl in Hlen. lia.
Qed.

Lemma string_of_uint_head d :
  d ≠ Decimal.Nil →
  (∀ d', d ≠ Decimal.D0 d') →
  ∃ c s, NilEmpty.string_of_uint d = String c s ∧ is_digit c = true ∧
         Ascii.eqb c "0" = false.
Proof.
  intros Hnil Hzero. destruct d; simpl; try done; try (by eauto).
  by destruct (Hzero d).
Qed.






(** Induction on a JSON value, with the hypothesis for every element of an
    array and every member of an object. *)
Lemma json_induction (P : json → Prop) :
  P JNull →
  (∀ b, P (JBool b)) →
  (∀ n, P (JNum n)) →
  (∀ s, P (JStr s)) →
  (∀ items, Forall P items → P (JArr items)) →
  (∀ members, Forall (λ kv, P kv.2) members → P (JObj members)) →
  ∀ v, P v.
Proof.
  intros Hnull Hbool Hnum Hstr Harr Hobj.
  fix IH 1. intros [| b | n | s | items | members].
  - exact Hnull.
  - apply Hbool.
  - apply Hnum.
  - apply Hstr.
  - apply Harr. induction items as [|x items IHl]; constructor; [apply IH|exact IHl].
  - apply Hobj. induction members as [|[k x] members IHl]; constructor;
      [apply IH|exact IHl].
Qed.

Lemma value_head_facts c :
  value_head c = true →
  is_ws c = false ∧ Ascii.eqb c "]" = false ∧ Ascii.eqb c "}" = false
  ∧ Ascii.eqb c "D" = false.
Proof. destruct c as [[] [] [] [] [] [] [] []]; cbn; intros; done. Qed.

Lemma number_head_facts c :
  (Ascii.eqb c "-" || is_digit c) = true →
  value_head c = true ∧ Ascii.eqb c "n" = false ∧ Ascii.eqb c "t" = false
  ∧ Ascii.eqb c "f" = false ∧ Ascii.eqb c dquote = false
  ∧ Ascii.eqb c "[" = false ∧ Ascii.eqb c "{" = false.
Proof. destruct c as [[] [] [] [] [] [] [] []]; cbn; intros; done. Qed.

Lemma num_to_string_head n :
  ∃ c s, num_to_string n = String c s ∧ (Ascii.eqb c "-" || is_digit c) = true.
Proof.
  unfold num_to_string, Z.to_int. destruct n as [|p|p]; cbn [NilZero.string_of_int].
  - by exists "0"%char, EmptyString.
  - unfold NilZero.string_of_uint.
    destruct (string_of_uint_head (Pos.to_uint p)) as (c & s & Hs & Hc & _).
    { apply DecimalPos.Unsigned.to_uint_nonnil. }
    { intros d'. apply to_uint_no_leading_zero. }
    exists c, s. split; [|by rewrite Hc, orb_true_r].
    pose proof (DecimalPos.Unsigned.to_uint_nonnil p). by destruct (Pos.to_uint p).
  - by eexists "-"%char, _.
Qed.

(** A printed value is not empty, and starts as a value does. *)
Lemma JSON_stringify_head v :
  ∃ c s, JSON_stringify v = String c s ∧ value_head c = true.
Proof.
  destruct v as [| [] | n | s | items | members]; cbn [JSON_stringify];
    try (by eexists _, _).
  destruct (num_to_string_head n) as (c & s & -> & Hc).
  exists c, s. split; [done|]. by apply number_head_facts.
Qed.


Section ReadBack.








End ReadBack.

(** ** The digest and the parser on known values *)

(** The test suite of RFC 1321. *)
Example md5_empty : MD5.md5_hex "" = "d41d8cd98f00b204e9800998ecf8427e".
Proof. vm_compute. reflexivity. Qed.

Example md5_abc : MD5.md5_hex "abc" = "900150983cd24fb0d6963f7d28e17f72".
Proof. vm_compute. reflexivity. Qed.

Example md5_two_blocks :
  MD5.md5_hex
    "12345678901234567890123456789012345678901234567890123456789012345678901234567890"
  = "57edf4a22be3c955ac49da2e2107b67a".
Proof. vm_compute. reflexivity. Qed.

(** The fingerprint of the request of the end-to-end example: the digest of
    [{"messages":[{"role":"user","content":"hello"}],"model":"gpt-4o"}]. *)
Example fingerprint_hello :
  ChatRoute.generateCacheKey [Scenario.hello] "gpt-4o" None None
  = "ffd941a44aa818a119cd45097797209c".
Proof. vm_compute. reflexivity. Qed.

Example JSON_parse_text_refuses :
  JSON_parse_text "{broken" = None ∧ JSON_parse_text "[1,]" = None ∧
  JSON_parse_text "01" = None ∧ JSON_parse_text "12 3" = None.
Proof. vm_compute. done. Qed.

Example JSON_parse_text_reads :
  JSON_parse_text " [ 1 , -2, true ,null ] "
  = Some (JArr [JNum 1; JNum (-2); JBool true; JNull]).
Proof. vm_compute. reflexivity. Qed.

(** ** The fingerprint *)



(** *** There are more requests than digests *)







(** ** Order of the forwarded frames *)

(** No forwarded frame is the sentinel: a printed value is never [[DONE]]. *)
Lemma forwarded_not_sentinel v : forwarded v ≠ ChatRoute.sse_frame "[DONE]".
Proof.
  unfold forwarded, ChatRoute.sse_frame. intros Heq.
  apply (inj (String.app "data: ")) in Heq.
  destruct v as [| [] | n | s | items | members]; cbn [JSON_stringify] in Heq;
    try discriminate Heq.
  - destruct (num_to_string_head n) as (c & s & Hs & Hc).
    rewrite Hs in Heq. destruct (number_head_facts c Hc) as (_ & _ & _ & _ & _ & Ha & _).
    injection Heq as -> _. done.
  - rewrite !append_assoc in Heq.
    change ("[" +:+ ?t) with (String "[" t) in Heq.
    change ("[DONE]" +:+ ?t) with (String "[" ("DONE]" +:+ t)) in Heq.
    injection Heq as Heq.
    destruct items as [|x items]; [discriminate Heq|].
    destruct (JSON_stringify_head x) as (c & s & Hs & Hc).
    destruct (value_head_facts c Hc) as (_ & _ & _ & HD).
    destruct items as [|x' items]; cbn [map join] in Heq; rewrite Hs in Heq;
      injection Heq as -> _; done.
Qed.



(** * Further properties of the rate limiter *)

Section Limiter.
Import RateLimit.

(** The lowest score of a sorted set: none for the empty set, else a score
    of the set that no other score is below. *)
Lemma zrange_first_score_spec (z : gmap string Z) :
  match zrange_first_score z with
  | None => z = ∅
  | Some lowest =>
      (∃ m, z !! m = Some lowest) ∧ ∀ m s, z !! m = Some s → lowest ≤ s
  end.
Proof.
  unfold zrange_first_score.
  apply (map_fold_weak_ind
    (λ r (z : gmap string Z),
       match r with
       | None => z = ∅
       | Some lowest => (∃ m, z !! m = Some lowest) ∧ ∀ m s, z !! m = Some s → lowest ≤ s
       end)); [done|].
  intros i x m r Hi Hr. destruct r as [a|].
  - destruct Hr as [[k Hk] Hmin]. split.
    + destruct (decide (a ≤ x)).
      * exists k. rewrite lookup_insert_ne; [|by intros ->; rewrite Hi in Hk].
        by rewrite Z.min_l.
      * exists i. rewrite lookup_insert_eq. f_equal. lia.
    + intros k' s. rewrite lookup_insert. case_decide.
      * intros [= <-]. lia.
      * intros Hs. specialize (Hmin _ _ Hs). lia.
  - subst m. split.
    + exists i. by rewrite lookup_insert_eq.
    + intros k' s. rewrite lookup_insert. case_decide; [by intros [= <-]|].
      by rewrite lookup_empty.
Qed.

Lemma zget_scores db key clock m s :
  scores_nonneg db → zget key clock db !! m = Some s → 0 ≤ s.
Proof.
  intros Hdb. unfold zget. destruct (db !! key) as [[z e]|] eqn:Hkey; [|done].
  case_bool_decide; [|done]. intros Hm. by eapply Hdb.
Qed.

(** X1: The reset time a call reports lies in the window that follows it: later
    than the call and at most 60 seconds later, as long as the store holds
    the scores the limiter itself writes; and the call keeps it so. *)
Theorem rateLimit_reset_in_window (userId : string) (clock : Z) (random : string)
    (db : RateDb) :
  0 ≤ clock →
  scores_nonneg db →
  let r := rateLimit userId clock random true db in
  clock / 1000 < reset r.1 ≤ clock / 1000 + 60 ∧ scores_nonneg r.2.
Proof.
  intros Hclock Hdb.
  assert (Hnow : 0 ≤ clock / 1000) by (apply Z.div_pos; lia).
  set (key := "rate_limit:" +:+ userId).
  set (now := clock / 1000) in *.
  set (z1 := zremrangebyscore 0 (now - RATE_LIMIT_window) (zget key clock db)).
  set (z2 := zadd now (num_to_string now +:+ "-" +:+ random) z1).
  assert (Hz2 : ∀ m s, z2 !! m = Some s → now - 60 < s ∧ 0 ≤ s).
  { intros m s. unfold z2, zadd. rewrite lookup_insert. case_decide.
    - intros [= <-]. lia.
    - unfold z1, zremrangebyscore. rewrite map_lookup_filter_Some.
      intros [Hs Hkeep]. simpl in Hkeep. unfold RATE_LIMIT_window in Hkeep.
      pose proof (zget_scores _ _ _ _ _ Hdb Hs). lia. }
  assert (Hreset : now < match zrange_first_score z2 with
                         | Some s => s + RATE_LIMIT_window
                         | None => now + RATE_LIMIT_window
                         end ≤ now + 60).
  { pose proof (zrange_first_score_spec z2) as Hfirst. unfold RATE_LIMIT_window.
    destruct (zrange_first_score z2) as [lowest|]; [|lia].
    destruct Hfirst as [[m Hm] Hmin].
    destruct (Hz2 _ _ Hm) as [Hlow _].
    assert (lowest ≤ now); [|lia].
    apply (Hmin (num_to_string now +:+ "-" +:+ random)).
    unfold z2, zadd. by rewrite lookup_insert_eq. }
  assert (Hdb' : scores_nonneg (<[key := (z2, clock + RATE_LIMIT_window * 1000)]> db)).
  { intros k z e m s. rewrite lookup_insert. case_decide.
    - intros [= <- <-] Hm. by destruct (Hz2 _ _ Hm).
    - intros Hk Hm. by eapply Hdb. }
  unfold rateLimit. fold key. fold now. fold z1. fold z2.
  case_bool_decide; simpl; done.
Qed.

Lemma rateLimit_reset_in_window_witness :
  let r := rateLimit "acct" 5000 "0.25" true ∅ in
  5 < reset r.1 ≤ 65 ∧ scores_nonneg r.2.
Proof.
  apply (rateLimit_reset_in_window "acct" 5000 "0.25" ∅).
  - lia.
  - intros key z e m s Hkey. by rewrite lookup_empty in Hkey.
Defined.

(** X2: What a call reports is fit for the headers: the limit is 60, the
    remaining quota lies between 0 and the limit, and it is 0 exactly when
    the call is refused, whether the store answers or not. *)
Theorem rateLimit_report_bounds (userId : string) (clock : Z) (random : string)
    (up : bool) (db : RateDb) :
  let r := (rateLimit userId clock random up db).1 in
  limit r = 60 ∧ 0 ≤ remaining r ≤ limit r ∧ (success r = false ↔ remaining r = 0).
Proof.
  unfold rateLimit. destruct up.
  - unfold zcard, RATE_LIMIT_requests.
    case_bool_decide as Hfull; cbn [fst limit remaining success].
    + split_and!; [done|lia|lia|done].
    + split_and!; [done|lia|lia|]. split; [done|lia].
  - cbn [fst limit remaining success]. unfold RATE_LIMIT_requests.
    split_and!; [done|lia|lia|]. split; [done|lia].
Qed.

End Limiter.

Section Bursts.
Import RateLimit.
Variable userId : string.
Variable t0 : Z.
Hypothesis t0_nonneg : 0 ≤ t0.

Lemma burst_window_kept calls : ∀ seen db,
  burst_window userId t0 seen db →
  Forall (λ c : Z * string, t0 ≤ c.1 ≤ t0 + 1000) calls →
  NoDup (seen ++ calls.*2) →
  burst_window userId t0 (seen ++ calls.*2) (rateLimit_seq userId calls db).2.
Proof.
  induction calls as [|[clock random] calls IH]; intros seen db Hinv Hr Hnd.
  - simpl. by rewrite app_nil_r.
  - apply Forall_cons in Hr as [Hc Hr]. simpl in Hc.
    assert (Hfresh : random ∉ seen).
    { apply NoDup_app in Hnd as (_ & Hd & _). intros Hin. apply (Hd _ Hin). set_solver. }
    pose proof (burst_window_step userId t0 t0_nonneg seen db clock random Hinv Hc Hfresh)
      as Hstep.
    simpl. destruct (rateLimit userId clock random true db) as [r db1].
    destruct Hstep as (_ & _ & Hinv1).
    specialize (IH (seen ++ [random]) db1 Hinv1 Hr).
    destruct (rateLimit_seq userId calls db1) as [rs db2]. simpl in *.
    rewrite <- app_assoc in IH. by apply IH.
Qed.

Lemma burst_window_count seen db clock :
  burst_window userId t0 seen db → t0 ≤ clock ≤ t0 + 1000 →
  window_count userId clock db = Z.of_nat (length seen).
Proof.
  intros Hinv Hc. destruct (Hinv clock Hc) as [Hsize Hmem].
  pose proof (burst_second t0 clock Hc) as Hnow.
  unfold window_count, zcard. f_equal. rewrite <- Hsize. f_equal.
  apply map_filter_id. intros m s Hm. destruct (Hmem m s Hm) as [Hs _].
  unfold RATE_LIMIT_window. simpl. lia.
Qed.

End Bursts.

(** X3: A burst of any length within one second, from an empty window and with
    pairwise distinct draws: the first 60 calls are allowed, every later one
    is refused, and each call, refused ones included, leaves an entry in the
    window. *)
Theorem burst_every_call_recorded (userId : string) (t0 : Z)
    (calls : list (Z * string)) (db : RateLimit.RateDb) :
  0 ≤ t0 →
  Forall (λ c : Z * string, t0 ≤ c.1 ≤ t0 + 1000) calls →
  NoDup calls.*2 →
  RateLimit.zget ("rate_limit:" +:+ userId) t0 db = ∅ →
  RateLimit.success <$> (RateLimit.rateLimit_seq userId calls db).1
    = (λ k, bool_decide (k < 60)%nat) <$> seq 0 (length calls) ∧
  ∀ clock, t0 ≤ clock ≤ t0 + 1000 →
    RateLimit.window_count userId clock (RateLimit.rateLimit_seq userId calls db).2
    = Z.of_nat (length calls).
Proof.
  intros Ht0 Hrange Hnd Hempty.
  pose proof (burst_window_start userId t0 db Hempty) as Hstart. split.
  - by apply (burst_window_run userId t0 Ht0 calls [] db).
  - intros clock Hc.
    rewrite (burst_window_count userId t0 (calls.*2) _ clock); [|
      by apply (burst_window_kept userId t0 Ht0 calls [] db)|done].
    by rewrite length_fmap.
Qed.

Lemma burst_every_call_recorded_witness :
  RateLimit.success <$> (RateLimit.rateLimit_seq "acct" (burst 5000 90) ∅).1
    = (λ k, bool_decide (k < 60)%nat) <$> seq 0 (length (burst 5000 90)) ∧
  ∀ clock, 5000 ≤ clock ≤ 5000 + 1000 →
    RateLimit.window_count "acct" clock (RateLimit.rateLimit_seq "acct" (burst 5000 90) ∅).2
    = Z.of_nat (length (burst 5000 90)).
Proof.
  apply (burst_every_call_recorded "acct" 5000 (burst 5000 90) ∅).
  - lia.
  - apply Forall_forall. intros c Hc. unfold burst in Hc.
    apply list_elem_of_fmap in Hc as (k & -> & _). simpl. lia.
  - apply (bool_decide_unpack _). vm_compute. exact I.
  - reflexivity.
Defined.

(** X4: Two calls of one account in the same second that draw the same random
    number are one entry: the second call leaves the window as the first
    call left it. *)
Theorem rateLimit_same_draw_counted_once (userId : string) (c1 c2 : Z)
    (random : string) (db : RateLimit.RateDb) :
  c1 / 1000 = c2 / 1000 →
  let db1 := (RateLimit.rateLimit userId c1 random true db).2 in
  let db2 := (RateLimit.rateLimit userId c2 random true db1).2 in
  RateLimit.zget ("rate_limit:" +:+ userId) c2 db2
  = RateLimit.zget ("rate_limit:" +:+ userId) c2 db1 ∧
  RateLimit.window_count userId c2 db2 = RateLimit.window_count userId c2 db1.
Proof.
  intros Hsec.
  assert (Hnear : c2 < c1 + 60 * 1000).
  { pose proof (Z.div_mod c1 1000 ltac:(lia)). pose proof (Z.div_mod c2 1000 ltac:(lia)).
    pose proof (Z.mod_pos_bound c1 1000 ltac:(lia)).
    pose proof (Z.mod_pos_bound c2 1000 ltac:(lia)). lia. }
  set (key := "rate_limit:" +:+ userId).
  set (now := c1 / 1000) in *.
  set (z1 := RateLimit.zremrangebyscore 0 (now - RateLimit.RATE_LIMIT_window)
               (RateLimit.zget key c1 db)).
  set (z2 := RateLimit.zadd now (num_to_string now +:+ "-" +:+ random) z1).
  assert (Hdb1 : (RateLimit.rateLimit userId c1 random true db).2
                 = <[key := (z2, c1 + RateLimit.RATE_LIMIT_window * 1000)]> db).
  { unfold RateLimit.rateLimit. fold key. fold now. fold z1. fold z2.
    by case_bool_decide. }
  assert (Hget1 : RateLimit.zget key c2
                    (<[key := (z2, c1 + RateLimit.RATE_LIMIT_window * 1000)]> db) = z2).
  { unfold RateLimit.zget. rewrite lookup_insert_eq.
    unfold RateLimit.RATE_LIMIT_window. by rewrite bool_decide_eq_true_2 by lia. }
  assert (Hkeep : RateLimit.zremrangebyscore 0 (now - RateLimit.RATE_LIMIT_window) z2 = z2).
  { apply map_filter_id. intros m s. unfold z2, RateLimit.zadd.
    rewrite lookup_insert. case_decide.
    - intros [= <-]. unfold RateLimit.RATE_LIMIT_window. simpl. lia.
    - unfold z1, RateLimit.zremrangebyscore. rewrite map_lookup_filter_Some.
      by intros [_ Hk]. }
  assert (Hdb2 : RateLimit.zget key c2
                   (RateLimit.rateLimit userId c2 random true
                      (<[key := (z2, c1 + RateLimit.RATE_LIMIT_window * 1000)]> db)).2
                 = z2).
  { unfold RateLimit.rateLimit. fold key. rewrite <- Hsec. fold now.
    rewrite Hget1, Hkeep.
    assert (Hsame : RateLimit.zadd now (num_to_string now +:+ "-" +:+ random) z2 = z2).
    { unfold RateLimit.zadd. apply insert_id. unfold z2, RateLimit.zadd.
      by rewrite lookup_insert_eq. }
    rewrite Hsame. unfold RateLimit.zget.
    case_bool_decide; simpl; rewrite lookup_insert_eq;
      unfold RateLimit.RATE_LIMIT_window; by rewrite bool_decide_eq_true_2 by lia. }
  cbn zeta. rewrite Hdb1. fold key. rewrite Hdb2, Hget1. split; [done|].
  unfold RateLimit.window_count. fold key. by rewrite Hdb2, Hget1.
Qed.

Lemma rateLimit_same_draw_counted_once_witness :
  let db1 := (RateLimit.rateLimit "u1" 5000 "0.5" true ∅).2 in
  let db2 := (RateLimit.rateLimit "u1" 5999 "0.5" true db1).2 in
  RateLimit.zget ("rate_limit:" +:+ "u1") 5999 db2
  = RateLimit.zget ("rate_limit:" +:+ "u1") 5999 db1 ∧
  RateLimit.window_count "u1" 5999 db2 = RateLimit.window_count "u1" 5999 db1.
Proof. apply (rateLimit_same_draw_counted_once "u1" 5000 5999 "0.5" ∅). reflexivity. Defined.



(** * Further properties of the handlers *)

(** ** Rules for the outcome of a step *)

Section PostRules.
Context {A B : Type}.
Implicit Types (ok : A → World → Prop) (err : Thrown → World → Prop).

Lemma post_ret (x : A) w ok err : ok x w → post (mret x) w ok err.
Proof. done. Qed.

Lemma post_throw (e : Thrown) w ok err : err e w → post (throw e) w ok err.
Proof. done. Qed.

Lemma post_bind (m : M A) (f : A → M B) w (ok : B → World → Prop) err :
  post m w (λ x w1, post (f x) w1 ok err) err → post (m ≫= f) w ok err.
Proof.
  unfold post, mbind, M_bind. by destruct (m w) as [[e|x] w1].
Qed.

Lemma post_fmap (m : M A) (f : A → B) w (ok : B → World → Prop) err :
  post m w (λ x w1, ok (f x) w1) err → post (f <$> m) w ok err.
Proof.
  unfold post, fmap, M_fmap. by destruct (m w) as [[e|x] w1].
Qed.

Lemma post_try_catch (m : M A) (h : Thrown → M A) w ok err :
  post m w ok (λ e w1, post (h e) w1 ok err) → post (try_catch m h) w ok err.
Proof.
  unfold post, try_catch. by destruct (m w) as [[e|x] w1].
Qed.

Lemma post_mono (m : M A) w ok ok' err err' :
  post m w ok err →
  (∀ x w1, ok x w1 → ok' x w1) → (∀ e w1, err e w1 → err' e w1) →
  post m w ok' err'.
Proof.
  unfold post. destruct (m w) as [[e|x] w1]; auto.
Qed.

Lemma post_gets (f : World → A) w ok err : ok (f w) w → post (gets f) w ok err.
Proof. done. Qed.

Lemma post_await_axios (r : AxiosResult A) w ok err :
  match r with
  | Resolved data => ok data w
  | Rejected e => err (AxiosFailure e) w
  end →
  post (await_axios r) w ok err.
Proof. by destruct r. Qed.

End PostRules.

Lemma post_modify (f : World → World) w ok err :
  ok tt (f w) → post (modify f) w ok err.
Proof. done. Qed.

Lemma post_read_path v ks w ok err :
  match js_path v ks with
  | Some x => ok x w
  | None => err TypeError w
  end →
  post (read_path v ks) w ok err.
Proof. unfold read_path. by destruct (js_path v ks). Qed.

Lemma post_updateWalletBalance uid d desc w ok err :
  ok tt (db_updateWalletBalance uid d desc w) →
  post (updateWalletBalance uid d desc) w ok err.
Proof. done. Qed.

Lemma post_getWalletByApiKey apiKey w ok err :
  ok (db_getWalletByApiKey apiKey w) w → post (getWalletByApiKey apiKey) w ok err.
Proof. done. Qed.

Lemma post_await_rateLimit env uid w ok err :
  (∀ r db, RateLimit.rateLimit uid (clock env) (random env) (redis_up env) (rate w) = (r, db) →
           ok r (set_rate uid db w)) →
  post (await_rateLimit env uid) w ok err.
Proof.
  intros H. unfold post, await_rateLimit.
  destruct (RateLimit.rateLimit _ _ _ _ _) as [r db] eqn:Hr. by apply H.
Qed.

Lemma post_redis_get env key w ok err :
  (redis_up env = true →
   ok (match redis w !! key with
       | Some (value, expires) =>
           if bool_decide (clock env < expires) then Some value else None
       | None => None
       end) w) →
  (redis_up env = false → err (Error "Connection is closed.") w) →
  post (ChatRoute.redis_get env key) w ok err.
Proof.
  intros Hup Hdown. unfold post, ChatRoute.redis_get.
  destruct (redis_up env); [|by apply Hdown].
  specialize (Hup eq_refl). by destruct (redis w !! key) as [[v e]|].
Qed.

Lemma post_redis_setex env key seconds value w ok err :
  (redis_up env = true →
   ok tt (set_redis (insert key (value, clock env + seconds * 1000)) w)) →
  (redis_up env = false → err (Error "Connection is closed.") w) →
  post (ChatRoute.redis_setex env key seconds value) w ok err.
Proof.
  intros Hup Hdown. unfold post, ChatRoute.redis_setex.
  destruct (redis_up env); [by apply Hup|by apply Hdown].
Qed.

(** One step of a walk through a handler: the rule of the head operation. *)
Ltac post_step :=
  lazymatch goal with
  | |- post (mbind _ _) _ _ _ => apply post_bind
  | |- post (fmap _ _) _ _ _ => apply post_fmap
  | |- post (mret _) _ _ _ => apply post_ret
  | |- post (throw _) _ _ _ => apply post_throw
  | |- post (try_catch _ _) _ _ _ => apply post_try_catch
  | |- post (gets _) _ _ _ => apply post_gets
  | |- post (modify _) _ _ _ => apply post_modify
  | |- post (await_axios ?r) _ _ _ => apply post_await_axios; destruct r eqn:?
  | |- post (read_path _ _) _ _ _ => apply post_read_path; destruct (js_path _ _) eqn:?
  | |- post (updateWalletBalance _ _ _) _ _ _ => apply post_updateWalletBalance
  | |- post (getWalletByApiKey _) _ _ _ => apply post_getWalletByApiKey
  | |- post (await_rateLimit _ _) _ _ _ => apply post_await_rateLimit; intros ? ? ?
  | |- post (ChatRoute.redis_get _ _) _ _ _ => apply post_redis_get; intros ?
  | |- post (ChatRoute.redis_setex _ _ _ _) _ _ _ => apply post_redis_setex; intros ?
  | |- post (if ?b then _ else _) _ _ _ => destruct b eqn:?
  | |- post (match ?x with _ => _ end) _ _ _ => destruct x eqn:?
  | |- post (let '(_, _) := ?x in _) _ _ _ => destruct x eqn:?
  end.

Ltac post_walk := repeat (post_step; cbn beta zeta).

(** ** The first handler *)

Section Legacy.
Variable calculateCost : string → jsval → Z.
Variable cfg : Config.
Variable env : Env.
Variable request : Request.
Variable w : World.

Lemma legacy_POST_post (Q : Response → World → Prop) :
  post (LegacyRoute.POST_try calculateCost cfg env request) w Q
       (λ e w', Q (LegacyRoute.POST_catch e) w') →
  Q (LegacyRoute.POST calculateCost cfg env request w).1
    (LegacyRoute.POST calculateCost cfg env request w).2.
Proof.
  unfold post, LegacyRoute.POST.
  by destruct (LegacyRoute.POST_try _ _ _ _ _) as [[e|r] w'].
Qed.

End Legacy.

Lemma caught_status env e (P : Z → Prop) :
  from_upstream env e →
  P 500 → (∀ st, upstream_answered env st → P st) →
  P (if default 0 (fst <$> ax_response e) =? 0 then 500
     else default 0 (fst <$> ax_response e)).
Proof.
  intros (url & payload & Hax) H500 Hup.
  destruct (ax_response e) as [[st d]|] eqn:Hr; simpl; [|done].
  destruct (st =? 0); [done|]. apply Hup. exists url, payload, e. by rewrite Hr.
Qed.


(** X7: The first handler keeps no cache and bills an answered request only: it
    leaves the wallet cache and the Redis keys alone, and either the ledger
    and the wallets are as before, or the answer is a 200 and the ledger has
    one more transaction, the debit of a cost that is no more than the balance
    the store held for the key when the request came in. *)
Theorem legacy_bills_answered_requests_only (calculateCost : string → jsval → Z)
    (cfg : Config) (env : Env) (request : Request) (w : World) :
  let r := (LegacyRoute.POST calculateCost cfg env request w).1 in
  let w' := (LegacyRoute.POST calculateCost cfg env request w).2 in
  walletCache w' = walletCache w ∧ redis w' = redis w ∧
  ((ledger w' = ledger w ∧ wallets w' = wallets w) ∨
   ∃ b wallet cost,
     json_body request = Some b ∧
     wallets w !! default "" (api_key request) = Some wallet ∧
     cost ≤ balance wallet ∧
     status r = 200 ∧
     ledger w' = ledger w ++ [{| accountId := userId wallet; delta := - cost;
                                 description :=
                                   debit_description (default "gpt-4o" (model b)) |}]).
Proof.
  apply (legacy_POST_post calculateCost cfg env request w
           (λ r w',
              walletCache w' = walletCache w ∧ redis w' = redis w ∧
              ((ledger w' = ledger w ∧ wallets w' = wallets w) ∨
               ∃ b wallet cost,
                 json_body request = Some b ∧
                 wallets w !! default "" (api_key request) = Some wallet ∧
                 cost ≤ balance wallet ∧
                 status r = 200 ∧
                 ledger w' = ledger w ++ [{| accountId := userId wallet; delta := - cost;
                                             description :=
                                               debit_description
                                                 (default "gpt-4o" (model b)) |}]))).
  unfold LegacyRoute.POST_try, LegacyRoute.validateConfig, LegacyRoute.getDeploymentName.
  post_walk; try (cbn; split_and!; try done; by left).
  all: cbn; split_and!; try done; right.
  all: case_bool_decide; [done|]; eexists _, _, _; split_and!; [done|done| |done|done]; lia.
Qed.

(** X8: With Redis down the first handler still serves: the limiter fails open,
    the counter store is as before, and a 429 is the provider's. *)
Theorem legacy_redis_down_fails_open (calculateCost : string → jsval → Z)
    (cfg : Config) (env : Env) (request : Request) (w : World) :
  redis_up env = false →
  let r := (LegacyRoute.POST calculateCost cfg env request w).1 in
  let w' := (LegacyRoute.POST calculateCost cfg env request w).2 in
  rate w' = rate w ∧ (status r = 429 → upstream_answered env 429).
Proof.
  intros Hdown.
  apply (legacy_POST_post calculateCost cfg env request w
           (λ r w', rate w' = rate w ∧ (status r = 429 → upstream_answered env 429))).
  unfold LegacyRoute.POST_try, LegacyRoute.validateConfig, LegacyRoute.getDeploymentName.
  post_walk;
    try match goal with
        | H : RateLimit.rateLimit _ _ _ _ _ = _ |- _ =>
            rewrite Hdown in H; unfold RateLimit.rateLimit in H; simplify_eq/=
        end;
    try (cbn; split; [done|]; done).
  all: cbn; split; [done|]; intros Hst; eapply status_429_upstream; eauto.
Qed.

(** X9: The first handler with its Azure endpoint or key missing answers every
    request with a 500 and touches nothing. *)
Theorem legacy_missing_config (calculateCost : string → jsval → Z)
    (cfg : Config) (env : Env) (request : Request) (w : World) :
  nonempty (AZURE_OPENAI_ENDPOINT cfg) && nonempty (AZURE_OPENAI_API_KEY cfg) = false →
  LegacyRoute.POST calculateCost cfg env request w
  = (error_response 500 (JStr "An internal error occurred"), w).
Proof.
  intros Hcfg. unfold LegacyRoute.POST, LegacyRoute.POST_try, LegacyRoute.validateConfig.
  rewrite <- negb_andb, Hcfg. done.
Qed.

(** X10: The first handler checks the quota before the model: a request of a
    known key whose wallet has a user makes exactly one call of the limiter,
    for that user, whatever model it names. *)
Theorem legacy_quota_before_model (calculateCost : string → jsval → Z)
    (cfg : Config) (env : Env) (request : Request) (w : World)
    (b : ChatBody) (apiKey : string) (wallet : Wallet) :
  nonempty (AZURE_OPENAI_ENDPOINT cfg) && nonempty (AZURE_OPENAI_API_KEY cfg) = true →
  json_body request = Some b →
  api_key request = Some apiKey → apiKey ≠ "" →
  wallets w !! apiKey = Some wallet →
  has_userId wallet = true →
  rate_calls (LegacyRoute.POST calculateCost cfg env request w).2
  = rate_calls w ++ [userId_text wallet].
Proof.
  intros Hcfg Hb Hk Hne Hw Hu.
  apply (legacy_POST_post calculateCost cfg env request w
           (λ _ w', rate_calls w' = rate_calls w ++ [userId_text wallet])).
  unfold LegacyRoute.POST_try, LegacyRoute.validateConfig, LegacyRoute.getDeploymentName.
  rewrite <- negb_andb, Hcfg, Hb, Hk. cbn [negb default nonempty].
  apply String.eqb_neq in Hne. rewrite Hne. cbn [negb].
  apply post_bind, post_ret. cbn beta.
  apply post_bind, post_getWalletByApiKey.
  unfold db_getWalletByApiKey, id. rewrite Hw, Hu.
  post_walk; done.
Qed.

(** ** The second handler *)

Section Second.
Variable calculateCost : string → jsval → Z.
Variable JSON_parse : string → option json.
Variable cfg : Config.
Variable env : Env.
Variable request : Request.
Variable w : World.

Lemma second_POST_post (Q : Response → World → Prop) :
  post (ChatRoute.POST_try calculateCost JSON_parse cfg env request) w Q
       (λ e w', Q (ChatRoute.POST_catch e) w') →
  Q (ChatRoute.POST calculateCost JSON_parse cfg env request w).1
    (ChatRoute.POST calculateCost JSON_parse cfg env request w).2.
Proof.
  unfold post, ChatRoute.POST.
  by destruct (ChatRoute.POST_try _ _ _ _ _ _) as [[e|r] w'].
Qed.

End Second.

Ltac unfold_second :=
  unfold ChatRoute.POST_try, ChatRoute.POST_cached, ChatRoute.POST_stream,
    ChatRoute.POST_live, ChatRoute.validateRequest, ChatRoute.getCachedWallet,
    ChatRoute.reemit, ChatRoute.on_end.

Lemma caught_message (message : string) :
  (if String.eqb message "" then "An internal error occurred" else message) ≠ "".
Proof. destruct (String.eqb message "") eqn:H; [done|]. by apply String.eqb_neq. Qed.

(** X11: Whatever the request, the caches and the provider's answer, the second
    handler answers with the CORS headers; an answer that is not a 200 is an
    object with the one member [error], a string that is not empty, and its
    status is 401, 402 or 500 or the status the provider answered with: the
    handler has no 400 and no 429 of its own. *)
Theorem second_answers (calculateCost : string → jsval → Z)
    (JSON_parse : string → option json) (cfg : Config)
    (env : Env) (request : Request) (w : World) :
  let r := (ChatRoute.POST calculateCost JSON_parse cfg env request w).1 in
  (∃ extra, headers r = CORS_HEADERS ++ extra) ∧
  (status r = 200 ∨
   (∃ message, body r = BodyJson (JObj [("error", JStr message)]) ∧ message ≠ "") ∧
   (status r ∈ [401; 402; 500] ∨ upstream_answered env (status r))).
Proof.
  apply (second_POST_post calculateCost JSON_parse cfg env request w
           (λ r _,
              (∃ extra, headers r = CORS_HEADERS ++ extra) ∧
              (status r = 200 ∨
               (∃ message, body r = BodyJson (JObj [("error", JStr message)])
                           ∧ message ≠ "") ∧
               (status r ∈ [401; 402; 500] ∨ upstream_answered env (status r))))).
  unfold_second.
  post_walk.
  all: try (cbn; split; [by eexists; rewrite ?app_nil_r|];
            first [by left | right; split; [by eexists|]; left; set_solver]).
  all: cbn; split; [by exists []|]; right; split; [eexists; split; [done|apply caught_message]|].
  all: apply (caught_status env e
                (λ st, st ∈ [401; 402; 500] ∨ upstream_answered env st));
    [eexists _, _; eauto| left; set_solver |by right].
Qed.

(** X12: A request is billed at most once by the second handler: the ledger is as
    it was and so are the wallets, or the ledger has one more transaction,
    a debit described by the model of the request. *)
Theorem second_bills_at_most_once (calculateCost : string → jsval → Z)
    (JSON_parse : string → option json) (cfg : Config)
    (env : Env) (request : Request) (w : World) :
  let w' := (ChatRoute.POST calculateCost JSON_parse cfg env request w).2 in
  (ledger w' = ledger w ∧ wallets w' = wallets w) ∨
  ∃ b account cost,
    json_body request = Some b ∧
    ledger w' = ledger w ++ [{| accountId := account; delta := - cost;
                                description :=
                                  debit_description (default "gpt-4o" (model b)) |}].
Proof.
  apply (second_POST_post calculateCost JSON_parse cfg env request w
           (λ _ w',
              (ledger w' = ledger w ∧ wallets w' = wallets w) ∨
              ∃ b account cost,
                json_body request = Some b ∧
                ledger w' = ledger w ++ [{| accountId := account; delta := - cost;
                                            description :=
                                              debit_description
                                                (default "gpt-4o" (model b)) |}])).
  unfold_second.
  post_walk.
  all: try (by left).
  all: right; by eexists _, _, _.
Qed.

(** X13: A streaming request goes past Redis: the second handler leaves the Redis
    keys as they were, whether Redis is up or not, and a 402 it answers with
    is the provider's. *)
Theorem second_stream_past_redis (calculateCost : string → jsval → Z)
    (JSON_parse : string → option json) (cfg : Config)
    (env : Env) (request : Request) (w : World) (b : ChatBody) :
  json_body request = Some b →
  stream b = Some true →
  let r := (ChatRoute.POST calculateCost JSON_parse cfg env request w).1 in
  let w' := (ChatRoute.POST calculateCost JSON_parse cfg env request w).2 in
  redis w' = redis w ∧ (status r = 402 → upstream_answered env 402).
Proof.
  intros Hb Hs.
  apply (second_POST_post calculateCost JSON_parse cfg env request w
           (λ r w', redis w' = redis w ∧ (status r = 402 → upstream_answered env 402))).
  unfold_second. rewrite Hb, Hs. cbn [default negb].
  post_walk.
  all: try (cbn; split; done).
  all: cbn; split; [done|]; intros Hst.
  all: apply (caught_status env e (λ st, st = 402 → upstream_answered env 402));
    [eexists _, _; eauto|done|by intros ? ? ->|done].
Qed.

(** X14: With Redis down the second handler answers a request that is not a
    streaming one with a 500, before it looks at the API key's wallet, and
    touches nothing. *)
Theorem second_redis_down (calculateCost : string → jsval → Z)
    (JSON_parse : string → option json) (cfg : Config)
    (env : Env) (request : Request) (w : World) (b : ChatBody) :
  redis_up env = false →
  json_body request = Some b →
  default false (stream b) = false →
  nonempty (api_key request) = true →
  ∃ message,
    ChatRoute.POST calculateCost JSON_parse cfg env request w
    = (error_response 500 (JStr message), w).
Proof.
  intros Hdown Hb Hs Hk.
  unfold ChatRoute.POST, ChatRoute.POST_try, ChatRoute.POST_cached, ChatRoute.redis_get.
  rewrite Hb, Hs, Hk. cbn [negb]. unfold_M. rewrite Hdown. by eexists.
Qed.

(** X15: A request whose body cannot be read gets a 500 from the second handler
    and one without an API key the 401 that asks for one, and neither touches
    anything: not the store, not the caches, not the limiter. *)
Theorem second_refuses_before_lookup (calculateCost : string → jsval → Z)
    (JSON_parse : string → option json) (cfg : Config)
    (env : Env) (request : Request) (w : World) :
  json_body request = None ∨ nonempty (api_key request) = false →
  ∃ message,
    ChatRoute.POST calculateCost JSON_parse cfg env request w
    = (error_response (if bool_decide (json_body request = None) then 500 else 401)
         (JStr message), w) ∧
    (json_body request ≠ None → message = "API key is required").
Proof.
  unfold ChatRoute.POST, ChatRoute.POST_try.
  intros [Hb|Hk].
  - rewrite Hb. by eexists.
  - destruct (json_body request); [|by eexists]. rewrite Hk. by eexists.
Qed.

(** ** The wallet cache and the response cache *)

(** X16: A wallet that [getCachedWallet] fetched from the store at some time is
    served from memory at every time less than 300 s later, whatever has
    become of the store since, and read from the store again after that. *)
Theorem getCachedWallet_read_through (env env' : Env) (apiKey : string)
    (w : World) (x : Wallet) (f : gmap string Wallet → gmap string Wallet) :
  (∀ data ts, walletCache w !! apiKey = Some (data, ts) →
              ChatRoute.WALLET_CACHE_TTL * 1000 ≤ clock env - ts) →
  wallets w !! apiKey = Some x →
  let w1 := set_wallets f (ChatRoute.getCachedWallet env apiKey w).2 in
  (clock env' - clock env < 300 * 1000 →
   ChatRoute.getCachedWallet env' apiKey w1 = (inr (Some x), w1)) ∧
  (300 * 1000 ≤ clock env' - clock env →
   (ChatRoute.getCachedWallet env' apiKey w1).1 = inr (f (wallets w) !! apiKey)).
Proof.
  intros Hold Hx.
  assert (Hw1 : (ChatRoute.getCachedWallet env apiKey w).2
                = set_walletCache (insert apiKey (x, clock env)) w).
  { unfold ChatRoute.getCachedWallet, getWalletByApiKey, db_getWalletByApiKey. unfold_M.
    destruct (walletCache w !! apiKey) as [[data ts]|] eqn:Hc; simpl.
    - rewrite bool_decide_eq_false_2 by (specialize (Hold _ _ eq_refl); lia).
      by rewrite Hx.
    - by rewrite Hx. }
  rewrite Hw1. cbn zeta.
  unfold ChatRoute.getCachedWallet, getWalletByApiKey, db_getWalletByApiKey. unfold_M.
  cbn [walletCache wallets set_wallets set_walletCache]. rewrite lookup_insert_eq.
  unfold ChatRoute.WALLET_CACHE_TTL. split; intros Ht.
  - by rewrite bool_decide_eq_true_2 by lia.
  - rewrite bool_decide_eq_false_2 by lia. cbn.
    by destruct (f (wallets w) !! apiKey).
Qed.

(** X17: No negative caching: when [getCachedWallet] finds no wallet, the store
    has none for the key, and the lookup leaves the world as it was. *)
Theorem getCachedWallet_unknown_key (env : Env) (apiKey : string) (w : World) :
  (ChatRoute.getCachedWallet env apiKey w).1 = inr None →
  wallets w !! apiKey = None ∧ (ChatRoute.getCachedWallet env apiKey w).2 = w.
Proof.
  unfold ChatRoute.getCachedWallet, getWalletByApiKey, db_getWalletByApiKey. unfold_M.
  destruct (walletCache w !! apiKey) as [[data ts]|]; simpl.
  - case_bool_decide; [done|]. by destruct (wallets w !! apiKey).
  - by destruct (wallets w !! apiKey).
Qed.

(** X18: The limiter is asked before the model is looked at: [validateRequest]
    for a wallet with a user makes its one call of [rateLimit], for that
    user, whatever model is named, a model with no deployment too. *)
Theorem validateRequest_quota_before_model (cfg : Config) (env : Env)
    (apiKey model : string) (w : World) (wallet : Wallet) :
  (ChatRoute.getCachedWallet env apiKey w).1 = inr (Some wallet) →
  has_userId wallet = true →
  rate_calls (ChatRoute.validateRequest cfg env apiKey model w).2
  = rate_calls w ++ [userId_text wallet].
Proof.
  intros Hget Hu. unfold ChatRoute.validateRequest.
  destruct (getCachedWallet_frame env apiKey w) as (x & cache & Hc).
  rewrite Hc in Hget. simpl in Hget. simplify_eq.
  unfold mbind at 1. unfold M_bind. rewrite Hc, Hu.
  unfold await_rateLimit. unfold_M. cbn [rate].
  destruct (RateLimit.rateLimit _ _ _ _ _) as [r db]. simpl.
  destruct (negb (RateLimit.success r)); [done|].
  by destruct (negb (nonempty _)).
Qed.

(** X19: A buffered call that is answered leaves the provider's completion in
    Redis under the fingerprint of the request, where a lookup finds it for
    3600 s from the time of the call and no longer. *)
Theorem POST_live_caches_for_an_hour (calculateCost : string → jsval → Z)
    (cfg : Config) (env : Env) (apiKey : string) (wallet : Wallet)
    (deploymentName model : string) (b : ChatBody) (w w' : World) (r : Response) :
  ChatRoute.POST_live calculateCost cfg env apiKey wallet deploymentName model b w
  = (inr r, w') →
  ∃ completion,
    axios_json env (completions_url cfg deploymentName)
      (completion_request (messages b) model (temperature b) (max_tokens b) (Some false))
    = Resolved completion ∧
    ∀ env', redis_up env' = true →
      ChatRoute.redis_get env'
        (ChatRoute.generateCacheKey (messages b) model (temperature b) (max_tokens b)) w'
      = (inr (if bool_decide (clock env' < clock env + 3600 * 1000)
              then Some (JSON_stringify completion) else None), w').
Proof.
  intros Hlive.
  assert (Hpost : post (ChatRoute.POST_live calculateCost cfg env apiKey wallet
                          deploymentName model b) w
            (λ _ w1, ∃ completion,
               axios_json env (completions_url cfg deploymentName)
                 (completion_request (messages b) model (temperature b) (max_tokens b)
                    (Some false)) = Resolved completion ∧
               redis w1 !! ChatRoute.generateCacheKey (messages b) model (temperature b)
                             (max_tokens b)
               = Some (JSON_stringify completion, clock env + 3600 * 1000))
            (λ _ _, True)).
  { unfold ChatRoute.POST_live. post_walk; try done.
    eexists; split; [done|]. cbn [redis set_redis]. by rewrite lookup_insert_eq. }
  unfold post in Hpost. rewrite Hlive in Hpost.
  destruct Hpost as (completion & Hax & Hkey). exists completion. split; [done|].
  intros env' Hup. unfold ChatRoute.redis_get. by rewrite Hup, Hkey.
Qed.

(** ** What the handler writes to a stream *)

(** A string of one line: [split] finds no line feed in it. *)
Lemma one_line_cons c s :
  split_lines (String c s) = [String c s] ↔ Ascii.eqb c LF = false ∧ split_lines s = [s].
Proof.
  cbn [split_lines]. destruct (Ascii.eqb c LF).
  - split; [|by intros [? _]]. intros H. pose proof (split_lines_nonempty s).
    by destruct (split_lines s).
  - pose proof (split_lines_nonempty s). destruct (split_lines s) as [|l ls]; [done|].
    split.
    + intros [= -> ->]. done.
    + by intros [_ [= -> ->]].
Qed.

Lemma one_line_app a b :
  split_lines a = [a] → split_lines b = [b] → split_lines (a +:+ b) = [a +:+ b].
Proof.
  intros Ha Hb. induction a as [|c a IH]; [done|].
  rewrite append_cons. apply one_line_cons in Ha as [Hc Ha].
  apply one_line_cons. auto.
Qed.

Lemma one_line_digits s : all_digits s = true → split_lines s = [s].
Proof.
  induction s as [|c s IH]; [done|]. cbn [all_digits].
  intros [Hc Hs]%andb_prop. apply one_line_cons. split; [|auto].
  destruct c as [[] [] [] [] [] [] [] []]; done.
Qed.

Lemma one_line_num n : split_lines (num_to_string n) = [num_to_string n].
Proof.
  destruct (Z_lt_le_dec n 0) as [Hn|Hn].
  - unfold num_to_string, Z.to_int. destruct n as [|p|p]; [lia|lia|].
    cbn [NilZero.string_of_int]. apply one_line_cons. split; [done|].
    apply one_line_digits. unfold NilZero.string_of_uint.
    destruct (Pos.to_uint p); try done; apply string_of_uint_digits.
  - by apply one_line_digits, num_to_string_digits.
Qed.

Lemma one_line_escape_char c : split_lines (escape_char c) = [escape_char c].
Proof. destruct c as [[] [] [] [] [] [] [] []]; reflexivity. Qed.

Lemma one_line_escape s : split_lines (escape s) = [escape s].
Proof.
  induction s as [|c s IH]; [done|]. cbn [escape].
  apply one_line_app; [apply one_line_escape_char|done].
Qed.

Lemma one_line_quote s : split_lines (quote s) = [quote s].
Proof.
  unfold quote. apply one_line_cons. split; [done|].
  apply one_line_app; [apply one_line_escape|done].
Qed.

Lemma one_line_join parts :
  Forall (λ p, split_lines p = [p]) parts →
  split_lines (join "," parts) = [join "," parts].
Proof.
  induction 1 as [|p parts Hp Hparts IH]; [done|].
  destruct parts as [|p' parts]; [done|].
  change (join "," (p :: p' :: parts)) with (p +:+ "," +:+ join "," (p' :: parts)).
  apply one_line_app; [done|]. by apply one_line_app.
Qed.

(** [JSON.stringify] writes its value on one line: a line feed in a string
    is escaped. *)
Lemma one_line_JSON_stringify v : split_lines (JSON_stringify v) = [JSON_stringify v].
Proof.
  induction v as [| b | n | s | items IH | members IH] using json_induction.
  - done.
  - by destruct b.
  - apply one_line_num.
  - apply one_line_quote.
  - cbn [JSON_stringify]. apply one_line_app; [done|]. apply one_line_app; [|done].
    apply one_line_join. apply Forall_fmap. exact IH.
  - cbn [JSON_stringify]. apply one_line_app; [done|]. apply one_line_app; [|done].
    apply one_line_join. apply Forall_fmap. eapply Forall_impl; [exact IH|].
    intros [k x] Hx. cbn. apply one_line_app; [apply one_line_quote|].
    by apply one_line_app.
Qed.

Lemma strip_prefix_app p s : strip_prefix p (p +:+ s) = Some s.
Proof.
  induction p as [|c p IH]; [done|].
  rewrite append_cons. cbn [strip_prefix]. by rewrite Ascii.eqb_refl.
Qed.

(** A frame the handler forwards is read back by the handler as the frame
    it was written for, when [JSON.parse] reads what [JSON.stringify] wrote. *)
Lemma parseSSEResponse_forwarded JSON_parse v :
  JSON_parse (JSON_stringify v) = Some v →
  ChatRoute.parseSSEResponse JSON_parse (forwarded v) = [v].
Proof.
  intros Hparse. rewrite parseSSEResponse_lines.
  unfold forwarded, ChatRoute.sse_frame.
  rewrite <- append_assoc, split_lines_app_LF.
  rewrite (one_line_app "data: " _ eq_refl (one_line_JSON_stringify v)).
  cbn [app omap list_omap split_lines]. cbn [Ascii.eqb Bool.eqb LF]. cbn iota.
  cbn [app omap list_omap].
  unfold data_frame at 1. rewrite strip_prefix_app.
  destruct (String.eqb (JSON_stringify v) "[DONE]") eqn:Hd.
  - apply String.eqb_eq in Hd. destruct (forwarded_not_sentinel v).
    unfold forwarded. by rewrite Hd.
  - by rewrite Hparse.
Qed.

(** X20: The stream the second handler writes is one it passes through unchanged:
    given its own frames and sentinel, a chunk each, it writes them again,
    when [JSON.parse] reads back what [JSON.stringify] wrote for them. *)
Theorem reemit_own_output_passes_through (calculateCost : string → jsval → Z)
    (JSON_parse : string → option json) (wallet : Wallet) (model : string)
    (frames : list json) (w : World) :
  Forall (λ v, JSON_parse (JSON_stringify v) = Some v) frames →
  let written := (forwarded <$> frames) ++ [ChatRoute.sse_frame "[DONE]"] in
  (ChatRoute.reemit calculateCost JSON_parse wallet model written w).1 = inr written.
Proof.
  intros Hframes. cbn zeta. rewrite reemit_frames. cbn [fst]. do 3 f_equal.
  rewrite bind_app. cbn [mbind list_bind app].
  assert (Hs : ChatRoute.parseSSEResponse JSON_parse (ChatRoute.sse_frame "[DONE]") = []).
  { rewrite parseSSEResponse_lines. reflexivity. }
  rewrite Hs, !app_nil_r.
  induction Hframes as [|v frames Hv _ IH]; [done|].
  cbn [fmap list_fmap mbind list_bind]. by rewrite parseSSEResponse_forwarded, IH.
Qed.

Lemma reemit_own_output_passes_through_witness :
  let frames := [JObj [("choices", JArr [JObj [("delta", JStr "Hi")]])];
                 JObj [("usage", JObj [("total_tokens", JNum 100)])]] in
  let written := (forwarded <$> frames) ++ [ChatRoute.sse_frame "[DONE]"] in
  (ChatRoute.reemit Scenario.pricing JSON_parse_text
     {| userId := Some "u1"; balance := 10000 |} "gpt-4o" written Scenario.world0).1
  = inr written.
Proof.
  apply (reemit_own_output_passes_through Scenario.pricing JSON_parse_text).
  repeat constructor.
Defined.

(** ** The keys of the response cache *)

Lemma hex_digit_char n :
  (n < 16)%N → hex_digit n ∈ list_ascii_of_string "0123456789abcdef".
Proof.
  intros Hn. apply list_elem_of_In.
  destruct n as [|p]; [cbn; tauto|].
  repeat match goal with q : positive |- _ => destruct q; try lia end; cbn; tauto.
Qed.

Lemma nibble_high x : (Z.to_N (x mod 256 / 16) < 16)%N.
Proof.
  pose proof (Z.mod_pos_bound x 256 ltac:(lia)).
  assert (0 ≤ x mod 256 / 16 < 16) by (split; [apply Z.div_pos|apply Z.div_lt_upper_bound]; lia).
  lia.
Qed.

Lemma nibble_low x : (Z.to_N ((x mod 256) mod 16) < 16)%N.
Proof. pose proof (Z.mod_pos_bound (x mod 256) 16 ltac:(lia)). lia. Qed.

Lemma hex_of_state_digits st :
  ∃ ds, length ds = 32%nat ∧ Forall (λ n, (n < 16)%N) ds ∧
        MD5.hex_of_state st = string_of_list_ascii (hex_digit <$> ds).
Proof.
  exists (w ← [MD5.wa st; MD5.wb st; MD5.wc st; MD5.wd st];
          b ← MD5.le_bytes 4 w; [Z.to_N (b / 16); Z.to_N (b mod 16)]).
  split_and!.
  - reflexivity.
  - cbn [mbind list_bind MD5.le_bytes app].
    repeat constructor; first [apply nibble_high | apply nibble_low].
  - reflexivity.
Qed.

(** X21: The key of a cached response is 32 hexadecimal digits, so it is none of
    the [wallet:] keys the handler writes and none of the [rate_limit:] keys
    of the limiter. *)
Theorem generateCacheKey_shape (messages : list json) (model : string)
    (temperature max_tokens : option Z) :
  let key := ChatRoute.generateCacheKey messages model temperature max_tokens in
  String.length key = 32%nat ∧
  (∀ c, c ∈ list_ascii_of_string key → c ∈ list_ascii_of_string "0123456789abcdef") ∧
  (∀ k, key ≠ "wallet:" +:+ k ∧ key ≠ "rate_limit:" +:+ k).
Proof.
  cbn zeta. unfold ChatRoute.generateCacheKey, MD5.md5_hex.
  destruct (hex_of_state_digits (MD5.digest (JSON_stringify
              (ChatRoute.cache_payload messages model temperature max_tokens))))
    as (ds & Hlen & Hds & ->).
  assert (Hchars : ∀ c, c ∈ list_ascii_of_string (string_of_list_ascii (hex_digit <$> ds)) →
                        c ∈ list_ascii_of_string "0123456789abcdef").
  { intros c. rewrite list_ascii_of_string_of_list_ascii.
    intros (n & -> & Hn)%list_elem_of_fmap. apply hex_digit_char.
    by eapply Forall_forall in Hds. }
  split_and!.
  - rewrite <- (length_fmap hex_digit) in Hlen. revert Hlen.
    generalize (hex_digit <$> ds). clear. intros l.
    rewrite <- (list_ascii_of_string_of_list_ascii l) at 1.
    generalize (string_of_list_ascii l). clear. intros s <-.
    induction s as [|c s IH]; [done|]. cbn. by rewrite IH.
  - done.
  - intros k. split; intros Heq; rewrite Heq in Hchars.
    + specialize (Hchars "w"%char ltac:(cbn; left)).
      apply list_elem_of_In in Hchars. cbn in Hchars. intuition discriminate.
    + specialize (Hchars "r"%char ltac:(cbn; left)).
      apply list_elem_of_In in Hchars. cbn in Hchars. intuition discriminate.
Qed.

(** ** What the second handler reads of Redis *)

Section Blind.
Context {A B : Type}.

Lemma blind_ret (x : A) : blind (mret x).
Proof. by intros w1 w2 Hw. Qed.

Lemma blind_throw (e : Thrown) : blind (throw (A:=A) e).
Proof. by intros w1 w2 Hw. Qed.

Lemma agree_bind (m : M A) (f : A → M B) w1 w2 :
  agree (m w1) (m w2) → (∀ x, blind (f x)) → agree ((m ≫= f) w1) ((m ≫= f) w2).
Proof.
  unfold mbind, M_bind. intros [Hr Hw] Hf.
  destruct (m w1) as [[e1|x1] w1'], (m w2) as [[e2|x2] w2']; simplify_eq/=; [done|].
  by apply Hf.
Qed.

Lemma blind_bind (m : M A) (f : A → M B) :
  blind m → (∀ x, blind (f x)) → blind (m ≫= f).
Proof. intros Hm Hf w1 w2 Hw. apply agree_bind; auto. Qed.

Lemma blind_fmap (m : M A) (f : A → B) : blind m → blind (f <$> m).
Proof.
  intros Hm w1 w2 Hw. destruct (Hm w1 w2 Hw) as [Hr Hw']. unfold fmap, M_fmap.
  destruct (m w1) as [[e1|x1] w1'], (m w2) as [[e2|x2] w2']; by simplify_eq/=.
Qed.

Lemma blind_try_catch (m : M A) (h : Thrown → M A) :
  blind m → (∀ e, blind (h e)) → blind (try_catch m h).
Proof.
  intros Hm Hh w1 w2 Hw. destruct (Hm w1 w2 Hw) as [Hr Hw']. unfold try_catch.
  destruct (m w1) as [[e1|x1] w1'], (m w2) as [[e2|x2] w2']; simplify_eq/=; [|done].
  by apply Hh.
Qed.

Lemma blind_await_axios (r : AxiosResult A) : blind (await_axios r).
Proof. destruct r; by intros w1 w2 Hw. Qed.

End Blind.

Lemma blind_gets {A} (f : World → A) :
  (∀ w1 w2, same_but_redis w1 w2 → f w1 = f w2) → blind (gets f).
Proof. intros Hf w1 w2 Hw. split; [|done]. cbn. f_equal. by apply Hf. Qed.

Lemma blind_modify (f : World → World) :
  (∀ w1 w2, same_but_redis w1 w2 → same_but_redis (f w1) (f w2)) → blind (modify f).
Proof. intros Hf w1 w2 Hw. split; [done|]. by apply Hf. Qed.

Lemma blind_read_path v ks : blind (read_path v ks).
Proof. unfold read_path. destruct (js_path v ks); by intros w1 w2 Hw. Qed.

Lemma blind_getWalletByApiKey apiKey : blind (getWalletByApiKey apiKey).
Proof.
  intros w1 w2 Hw. split; [|done]. cbn. unfold db_getWalletByApiKey.
  destruct Hw as (-> & _). done.
Qed.

Lemma blind_updateWalletBalance uid d desc : blind (updateWalletBalance uid d desc).
Proof.
  intros w1 w2 (Hs & Hl & Hc & Hr & Hn). split; [done|].
  repeat split; cbn; congruence.
Qed.

Lemma blind_await_rateLimit env uid : blind (await_rateLimit env uid).
Proof.
  intros w1 w2 (Hs & Hl & Hc & Hr & Hn). unfold await_rateLimit. rewrite Hr.
  destruct (RateLimit.rateLimit _ _ _ _ _) as [r db].
  split; [done|]. repeat split; cbn; congruence.
Qed.

Lemma blind_redis_setex env key seconds value :
  blind (ChatRoute.redis_setex env key seconds value).
Proof.
  intros w1 w2 Hw. unfold ChatRoute.redis_setex. by destruct (redis_up env).
Qed.

Ltac blind_step :=
  lazymatch goal with
  | |- blind (mbind _ _) => apply blind_bind; [|intros ?]
  | |- blind (fmap _ _) => apply blind_fmap
  | |- blind (mret _) => apply blind_ret
  | |- blind (throw _) => apply blind_throw
  | |- blind (try_catch _ _) => apply blind_try_catch; [|intros ?]
  | |- blind (gets _) =>
      apply blind_gets; intros ? ? (? & ? & ? & ? & ?); cbn; congruence
  | |- blind (modify _) =>
      apply blind_modify; intros ? ? (? & ? & ? & ? & ?); repeat split; cbn; congruence
  | |- blind (await_axios _) => apply blind_await_axios
  | |- blind (read_path _ _) => apply blind_read_path
  | |- blind (updateWalletBalance _ _ _) => apply blind_updateWalletBalance
  | |- blind (getWalletByApiKey _) => apply blind_getWalletByApiKey
  | |- blind (await_rateLimit _ _) => apply blind_await_rateLimit
  | |- blind (ChatRoute.redis_setex _ _ _ _) => apply blind_redis_setex
  | |- blind (if ?b then _ else _) => destruct b
  | |- blind (match ?x with _ => _ end) => destruct x
  | |- blind (let '(_, _) := ?x in _) => destruct x
  end.

Ltac blind_walk := repeat (blind_step; cbn beta zeta).

Section BlindHandler.
Variable calculateCost : string → jsval → Z.
Variable JSON_parse : string → option json.
Variable cfg : Config.
Variable env : Env.

Lemma blind_getCachedWallet apiKey : blind (ChatRoute.getCachedWallet env apiKey).
Proof.
  unfold ChatRoute.getCachedWallet. blind_walk.
Qed.

Lemma blind_validateRequest apiKey model :
  blind (ChatRoute.validateRequest cfg env apiKey model).
Proof.
  unfold ChatRoute.validateRequest.
  apply blind_bind; [apply blind_getCachedWallet|]. intros wallet. blind_walk.
Qed.

Lemma blind_after_validateRequest apiKey model b :
  blind ('(wallet, deploymentName) ← ChatRoute.validateRequest cfg env apiKey model;
         if default false (stream b)
         then ChatRoute.POST_stream calculateCost JSON_parse cfg env wallet deploymentName
                model b
         else ChatRoute.POST_live calculateCost cfg env apiKey wallet deploymentName
                model b).
Proof.
  apply blind_bind; [apply blind_validateRequest|]. intros [wallet deploymentName].
  unfold ChatRoute.POST_stream, ChatRoute.POST_live, ChatRoute.reemit, ChatRoute.on_end.
  blind_walk.
Qed.

(** The one read of Redis is the lookup of the request's fingerprint: from
    two worlds that differ in Redis only, with the same entry under the
    fingerprint, the [try] block has the same result and leaves worlds that
    differ in Redis only. *)
Lemma POST_try_reads_fingerprint request w1 w2 :
  same_but_redis w1 w2 →
  (∀ b, json_body request = Some b →
        redis w1 !! ChatRoute.generateCacheKey (messages b) (default "gpt-4o" (model b))
                      (temperature b) (max_tokens b)
        = redis w2 !! ChatRoute.generateCacheKey (messages b) (default "gpt-4o" (model b))
                        (temperature b) (max_tokens b)) →
  agree (ChatRoute.POST_try calculateCost JSON_parse cfg env request w1)
        (ChatRoute.POST_try calculateCost JSON_parse cfg env request w2).
Proof.
  intros Hw Hkey. unfold ChatRoute.POST_try.
  destruct (json_body request) as [b|]; [|done].
  specialize (Hkey b eq_refl).
  destruct (negb (nonempty (api_key request))); [done|].
  destruct (default false (stream b)) eqn:Hs; cbn [negb].
  - apply agree_bind; [done|]. intros [r|]; [apply blind_ret|].
    pose proof (blind_after_validateRequest (default "" (api_key request))
                  (default "gpt-4o" (model b)) b) as Hblind.
    by rewrite Hs in Hblind.
  - apply agree_bind.
    + unfold ChatRoute.POST_cached. apply agree_bind.
      * unfold ChatRoute.redis_get. rewrite Hkey. destruct (redis_up env); [|done].
        by destruct (redis w2 !! _) as [[value expires]|].
      * intros cachedResponse. destruct (nonempty cachedResponse); [|apply blind_ret].
        destruct (JSON_parse _); [|apply blind_throw].
        apply blind_bind; [apply blind_validateRequest|]. intros [wallet d].
        blind_walk.
    + intros [r|]; [apply blind_ret|].
      pose proof (blind_after_validateRequest (default "" (api_key request))
                    (default "gpt-4o" (model b)) b) as Hblind.
      by rewrite Hs in Hblind.
Qed.

End BlindHandler.

Lemma cache_key_not_wallet_key messages model temperature max_tokens apiKey :
  ChatRoute.generateCacheKey messages model temperature max_tokens ≠ "wallet:" +:+ apiKey.
Proof.
  unfold ChatRoute.generateCacheKey, MD5.md5_hex.
  destruct (hex_of_state_digits (MD5.digest (JSON_stringify
              (ChatRoute.cache_payload messages model temperature max_tokens))))
    as (ds & Hlen & Hds & ->).
  destruct ds as [|n ds]; [done|]. apply Forall_cons in Hds as [Hn _].
  cbn [fmap list_fmap string_of_list_ascii]. intros [= Hc _].
  pose proof (hex_digit_char n Hn) as Hin. rewrite Hc in Hin.
  apply list_elem_of_In in Hin. cbn in Hin. intuition discriminate.
Qed.

(** X22: The [wallet:] keys that the second handler writes to Redis are never
    read: whatever is stored under such a key, the answer to a request is the
    same, and so are the store, the ledger, the wallet cache and the
    counters it leaves. *)
Theorem second_never_reads_wallet_keys (calculateCost : string → jsval → Z)
    (JSON_parse : string → option json) (cfg : Config)
    (env : Env) (request : Request) (w : World) (apiKey : string) (entry : string * Z) :
  let stored := set_redis (insert ("wallet:" +:+ apiKey) entry) w in
  (ChatRoute.POST calculateCost JSON_parse cfg env request stored).1
  = (ChatRoute.POST calculateCost JSON_parse cfg env request w).1 ∧
  same_but_redis (ChatRoute.POST calculateCost JSON_parse cfg env request stored).2
                 (ChatRoute.POST calculateCost JSON_parse cfg env request w).2.
Proof.
  cbn zeta.
  destruct (POST_try_reads_fingerprint calculateCost JSON_parse cfg env request
              (set_redis (insert ("wallet:" +:+ apiKey) entry) w) w) as [Hr Hw].
  - done.
  - intros b _. cbn [redis set_redis]. apply lookup_insert_ne.
    intros Heq. by eapply cache_key_not_wallet_key.
  - unfold ChatRoute.POST.
    destruct (ChatRoute.POST_try _ _ _ _ _ (set_redis _ w)) as [[e1|r1] w1],
      (ChatRoute.POST_try _ _ _ _ _ w) as [[e2|r2] w2]; by simplify_eq/=.
Qed.

(** X23: A request served from the response cache makes no call to the provider:
    the second handler answers it alike, and leaves the same world, whatever
    the provider would answer. *)
Theorem second_cache_hit_makes_no_provider_call (calculateCost : string → jsval → Z)
    (JSON_parse : string → option json) (cfg : Config)
    (env env' : Env) (request : Request) (w : World) (b : ChatBody)
    (text : string) (expires : Z) :
  json_body request = Some b →
  default false (stream b) = false →
  nonempty (api_key request) = true →
  redis_up env = true →
  redis w !! ChatRoute.generateCacheKey (messages b) (default "gpt-4o" (model b))
               (temperature b) (max_tokens b) = Some (text, expires) →
  clock env < expires → text ≠ "" →
  clock env' = clock env → random env' = random env → redis_up env' = redis_up env →
  ChatRoute.POST calculateCost JSON_parse cfg env' request w
  = ChatRoute.POST calculateCost JSON_parse cfg env request w.
Proof.
  intros Hb Hs Hk Hup Hhit Hfresh Htext Hclock Hrandom Hup'.
  set (apiKey := default "" (api_key request)).
  set (model := default "gpt-4o" (model b)).
  assert (Hsame : ChatRoute.POST_cached calculateCost JSON_parse cfg env' apiKey model b w
                  = ChatRoute.POST_cached calculateCost JSON_parse cfg env apiKey model b w).
  { unfold ChatRoute.POST_cached, ChatRoute.redis_get, ChatRoute.validateRequest,
      ChatRoute.getCachedWallet, await_rateLimit.
    by rewrite Hclock, Hrandom, Hup'. }
  assert (Hsome : post (ChatRoute.POST_cached calculateCost JSON_parse cfg env apiKey model b)
                    w (λ hit _, is_Some hit) (λ _ _, True)).
  { unfold ChatRoute.POST_cached. apply post_bind, post_redis_get; [|by rewrite Hup].
    intros _. unfold model. rewrite Hhit, bool_decide_eq_true_2 by done.
    apply String.eqb_neq in Htext. cbn [nonempty]. rewrite Htext. cbn [negb].
    unfold ChatRoute.validateRequest, ChatRoute.getCachedWallet.
    post_walk; done. }
  unfold ChatRoute.POST, ChatRoute.POST_try. rewrite Hb, Hs, Hk. cbn [negb].
  fold apiKey model. unfold mbind at 1 3. unfold M_bind. rewrite Hsame.
  unfold post in Hsome. unfold mret, M_ret.
  clear Hsame.
  destruct (ChatRoute.POST_cached calculateCost JSON_parse cfg env apiKey model b w)
    as [[e|[r|]] w1]; [done|done|].
  destruct Hsome as [r Hr]. discriminate Hr.
Qed.

(** ** The pages of the dashboard *)

(** X24: Started on page 1, the page of the dashboard stays between 1 and the
    number of pages (or on page 1 when there is none), whatever buttons are
    clicked. *)
Theorem dashboard_page_in_range (transactionsData : option (option Z))
    (clicks : list Dashboard.Button) :
  let totalPages := Dashboard.totalPages transactionsData in
  let page := fold_left (Dashboard.click totalPages) clicks 1 in
  1 ≤ page ≤ Z.max 1 totalPages.
Proof.
  cbn zeta. generalize (Dashboard.totalPages transactionsData). intros tp.
  assert (Hinv : ∀ p, 1 ≤ p ≤ Z.max 1 tp →
                      1 ≤ fold_left (Dashboard.click tp) clicks p ≤ Z.max 1 tp);
    [|apply Hinv; lia].
  induction clicks as [|c clicks IH]; [done|]. intros p Hp. cbn [fold_left].
  apply IH. unfold Dashboard.click, Dashboard.disabled, Dashboard.onClick.
  destruct c.
  - destruct (Z.eqb_spec p 1); [lia|]. destruct (Z.ltb_spec 1 p); lia.
  - destruct (Z.leb_spec tp p); lia.
Qed.

(** X25: Every transaction of the count lies on a page of the dashboard that
    clicks on Next reach from page 1: the transaction of rank [i], ten to a
    page, after [i / 10] of them. *)
Theorem dashboard_next_reaches (totalCount i : Z) :
  0 ≤ i < totalCount →
  let totalPages := Dashboard.totalPages (Some (Some totalCount)) in
  fold_left (Dashboard.click totalPages) (repeat Dashboard.Next (Z.to_nat (i / 10))) 1
  = i / 10 + 1.
Proof.
  intros Hi. cbn [Dashboard.totalPages default from_option id]. cbn zeta.
  assert (Hq : i / 10 < - (- totalCount / 10)).
  { pose proof (Z.div_mod i 10 ltac:(lia)). pose proof (Z.mod_pos_bound i 10 ltac:(lia)).
    pose proof (Z.div_mod (- totalCount) 10 ltac:(lia)).
    pose proof (Z.mod_pos_bound (- totalCount) 10 ltac:(lia)). lia. }
  assert (H0 : 0 ≤ i / 10) by (apply Z.div_pos; lia).
  revert Hq H0. generalize (- (- totalCount / 10)). generalize (i / 10). clear.
  intros q tp Hq H0.
  assert (Hrun : ∀ n p, 1 ≤ p → p + Z.of_nat n ≤ tp →
                 fold_left (Dashboard.click tp) (repeat Dashboard.Next n) p
                 = p + Z.of_nat n).
  { induction n as [|n IH]; intros p Hp Hn; cbn [repeat fold_left]; [lia|].
    unfold Dashboard.click at 2. cbn [Dashboard.disabled Dashboard.onClick].
    destruct (Z.leb_spec tp p); [lia|]. rewrite IH; lia. }
  rewrite Hrun; lia.
Qed.

Lemma dashboard_next_reaches_witness :
  let totalPages := Dashboard.totalPages (Some (Some 25)) in
  fold_left (Dashboard.click totalPages) (repeat Dashboard.Next (Z.to_nat (24 / 10))) 1
  = 24 / 10 + 1.
Proof. apply (dashboard_next_reaches 25 24). lia. Defined.

(** ** The properties above on the deployment of the end-to-end example *)

Lemma legacy_redis_down_fails_open_witness :
  let env := redis_down (Scenario.env_at 1000 100 []) in
  let request := Scenario.chat (Some "k1") (Some "gpt-4o") Scenario.hello None in
  let r := (LegacyRoute.POST Scenario.pricing Scenario.cfg env request Scenario.exhausted).1 in
  let w' := (LegacyRoute.POST Scenario.pricing Scenario.cfg env request Scenario.exhausted).2 in
  rate w' = rate Scenario.exhausted ∧ (status r = 429 → upstream_answered env 429).
Proof.
  apply (legacy_redis_down_fails_open Scenario.pricing Scenario.cfg
           (redis_down (Scenario.env_at 1000 100 []))
           (Scenario.chat (Some "k1") (Some "gpt-4o") Scenario.hello None)
           Scenario.exhausted).
  reflexivity.
Defined.

Lemma legacy_missing_config_witness :
  let cfg := {| AZURE_OPENAI_ENDPOINT := None; AZURE_OPENAI_API_KEY := Some "secret";
                AZURE_GPT4_DEPLOYMENT_NAME := Some "dep-gpt4";
                AZURE_OPENAI_DEPLOYMENT_NAME := Some "dep-gpt4o";
                AZURE_GPT35_DEPLOYMENT_NAME := Some "dep-gpt35" |} in
  LegacyRoute.POST Scenario.pricing cfg (Scenario.env_at 1000 100 [])
    (Scenario.chat (Some "k1") (Some "gpt-4o") Scenario.hello None) Scenario.world0
  = (error_response 500 (JStr "An internal error occurred"), Scenario.world0).
Proof.
  apply (legacy_missing_config Scenario.pricing
           {| AZURE_OPENAI_ENDPOINT := None; AZURE_OPENAI_API_KEY := Some "secret";
              AZURE_GPT4_DEPLOYMENT_NAME := Some "dep-gpt4";
              AZURE_OPENAI_DEPLOYMENT_NAME := Some "dep-gpt4o";
              AZURE_GPT35_DEPLOYMENT_NAME := Some "dep-gpt35" |}).
  reflexivity.
Defined.

Lemma legacy_quota_before_model_witness :
  rate_calls (LegacyRoute.POST Scenario.pricing Scenario.cfg (Scenario.env_at 1000 100 [])
                (Scenario.chat (Some "k1") (Some "gpt-5") Scenario.hello None)
                Scenario.world0).2
  = rate_calls Scenario.world0 ++ [userId_text {| userId := Some "u1"; balance := 10000 |}].
Proof.
  apply (legacy_quota_before_model Scenario.pricing Scenario.cfg (Scenario.env_at 1000 100 [])
           (Scenario.chat (Some "k1") (Some "gpt-5") Scenario.hello None) Scenario.world0
           {| messages := [Scenario.hello]; model := Some "gpt-5"; temperature := None;
              max_tokens := None; stream := None |}
           "k1" {| userId := Some "u1"; balance := 10000 |}).
  - reflexivity.
  - reflexivity.
  - reflexivity.
  - discriminate.
  - reflexivity.
  - reflexivity.
Defined.

Lemma second_stream_past_redis_witness :
  let env := redis_down (Scenario.env_at 1000 100 [Scenario.delta_chunk; Scenario.usage_chunk]) in
  let request := Scenario.chat (Some "k1") (Some "gpt-4o") Scenario.hello (Some true) in
  let r := (ChatRoute.POST Scenario.pricing JSON_parse_text Scenario.cfg env request
              Scenario.world0).1 in
  let w' := (ChatRoute.POST Scenario.pricing JSON_parse_text Scenario.cfg env request
               Scenario.world0).2 in
  redis w' = redis Scenario.world0 ∧ (status r = 402 → upstream_answered env 402).
Proof.
  apply (second_stream_past_redis Scenario.pricing JSON_parse_text Scenario.cfg
           (redis_down (Scenario.env_at 1000 100 [Scenario.delta_chunk; Scenario.usage_chunk]))
           (Scenario.chat (Some "k1") (Some "gpt-4o") Scenario.hello (Some true))
           Scenario.world0
           {| messages := [Scenario.hello]; model := Some "gpt-4o"; temperature := None;
              max_tokens := None; stream := Some true |}).
  - reflexivity.
  - reflexivity.
Defined.

Lemma second_redis_down_witness :
  ∃ message,
    ChatRoute.POST Scenario.pricing JSON_parse_text Scenario.cfg
      (redis_down (Scenario.env_at 1000 100 []))
      (Scenario.chat (Some "k1") (Some "gpt-4o") Scenario.hello None) Scenario.world0
    = (error_response 500 (JStr message), Scenario.world0).
Proof.
  apply (second_redis_down Scenario.pricing JSON_parse_text Scenario.cfg
           (redis_down (Scenario.env_at 1000 100 []))
           (Scenario.chat (Some "k1") (Some "gpt-4o") Scenario.hello None) Scenario.world0
           {| messages := [Scenario.hello]; model := Some "gpt-4o"; temperature := None;
              max_tokens := None; stream := None |}).
  - reflexivity.
  - reflexivity.
  - reflexivity.
  - reflexivity.
Defined.

Lemma second_refuses_before_lookup_witness :
  let request := Scenario.chat None (Some "gpt-4o") Scenario.hello None in
  ∃ message,
    ChatRoute.POST Scenario.pricing JSON_parse_text Scenario.cfg
      (Scenario.env_at 1000 100 []) request Scenario.world0
    = (error_response (if bool_decide (json_body request = None) then 500 else 401)
         (JStr message), Scenario.world0) ∧
    (json_body request ≠ None → message = "API key is required").
Proof.
  apply (second_refuses_before_lookup Scenario.pricing JSON_parse_text Scenario.cfg
           (Scenario.env_at 1000 100 [])
           (Scenario.chat None (Some "gpt-4o") Scenario.hello None) Scenario.world0).
  right. reflexivity.
Defined.

Lemma getCachedWallet_read_through_witness :
  let x := {| userId := Some "u1"; balance := 10000 |} in
  let spent := <["k1" := {| userId := Some "u1"; balance := 0 |}]> in
  let w1 := set_wallets spent
              (ChatRoute.getCachedWallet (Scenario.env_at 1000 100 []) "k1"
                 Scenario.world0).2 in
  let env' := Scenario.env_at 300999 100 [] in
  (clock env' - 1000 < 300 * 1000 →
   ChatRoute.getCachedWallet env' "k1" w1 = (inr (Some x), w1)) ∧
  (300 * 1000 ≤ clock env' - 1000 →
   (ChatRoute.getCachedWallet env' "k1" w1).1
   = inr (spent (wallets Scenario.world0) !! "k1")).
Proof.
  apply (getCachedWallet_read_through (Scenario.env_at 1000 100 [])
           (Scenario.env_at 300999 100 []) "k1" Scenario.world0
           {| userId := Some "u1"; balance := 10000 |}
           (<["k1" := {| userId := Some "u1"; balance := 0 |}]>)).
  - intros data ts Hc. discriminate Hc.
  - reflexivity.
Defined.

Lemma getCachedWallet_unknown_key_witness :
  wallets Scenario.world0 !! "k2" = None ∧
  (ChatRoute.getCachedWallet (Scenario.env_at 1000 100 []) "k2" Scenario.world0).2
  = Scenario.world0.
Proof.
  apply (getCachedWallet_unknown_key (Scenario.env_at 1000 100 []) "k2" Scenario.world0).
  reflexivity.
Defined.

Lemma validateRequest_quota_before_model_witness :
  rate_calls (ChatRoute.validateRequest Scenario.cfg (Scenario.env_at 1000 100 []) "k1"
                "gpt-5" Scenario.world0).2
  = rate_calls Scenario.world0 ++ [userId_text {| userId := Some "u1"; balance := 10000 |}].
Proof.
  apply (validateRequest_quota_before_model Scenario.cfg (Scenario.env_at 1000 100 []) "k1"
           "gpt-5" Scenario.world0 {| userId := Some "u1"; balance := 10000 |}).
  - reflexivity.
  - reflexivity.
Defined.

Lemma POST_live_caches_for_an_hour_witness :
  let env := Scenario.env_at 1000 100 [] in
  let b := {| messages := [Scenario.hello]; model := Some "gpt-4o"; temperature := None;
              max_tokens := None; stream := None |} in
  let w' := (ChatRoute.POST_live Scenario.pricing Scenario.cfg env "k1"
               {| userId := Some "u1"; balance := 10000 |} "dep-gpt4o" "gpt-4o" b
               Scenario.world0).2 in
  ∃ completion,
    axios_json env (completions_url Scenario.cfg "dep-gpt4o")
      (completion_request (messages b) "gpt-4o" (temperature b) (max_tokens b) (Some false))
    = Resolved completion ∧
    ∀ env', redis_up env' = true →
      ChatRoute.redis_get env'
        (ChatRoute.generateCacheKey (messages b) "gpt-4o" (temperature b) (max_tokens b)) w'
      = (inr (if bool_decide (clock env' < clock env + 3600 * 1000)
              then Some (JSON_stringify completion) else None), w').
Proof.
  apply (POST_live_caches_for_an_hour Scenario.pricing Scenario.cfg
            (Scenario.env_at 1000 100 []) "k1" {| userId := Some "u1"; balance := 10000 |}
            "dep-gpt4o" "gpt-4o"
            {| messages := [Scenario.hello]; model := Some "gpt-4o"; temperature := None;
               max_tokens := None; stream := None |}
            Scenario.world0 _
            (json_response 200
               (JObj [("id", JStr "chatcmpl-1");
                      ("usage", JObj [("total_tokens", JNum 100)]);
                      ("cost", JNum 50); ("remainingBalance", JNum 9950)]))).
  vm_compute. reflexivity.
Defined.

Lemma second_cache_hit_makes_no_provider_call_witness :
  let request := Scenario.chat (Some "k1") (Some "gpt-4o") Scenario.hello None in
  let env := Scenario.env_at 2000 100 [] in
  let env' := later 2000 (λ _ _, Rejected {| ax_message := "down"; ax_response := None |})
                env in
  ChatRoute.POST Scenario.pricing JSON_parse_text Scenario.cfg env' request
    Scenario.first_call.2
  = ChatRoute.POST Scenario.pricing JSON_parse_text Scenario.cfg env request
      Scenario.first_call.2.
Proof.
  eapply (second_cache_hit_makes_no_provider_call Scenario.pricing JSON_parse_text
            Scenario.cfg (Scenario.env_at 2000 100 [])
            (later 2000 (λ _ _, Rejected {| ax_message := "down"; ax_response := None |})
               (Scenario.env_at 2000 100 []))
            (Scenario.chat (Some "k1") (Some "gpt-4o") Scenario.hello None)
            Scenario.first_call.2
            {| messages := [Scenario.hello]; model := Some "gpt-4o"; temperature := None;
               max_tokens := None; stream := None |}).
  - reflexivity.
  - reflexivity.
  - reflexivity.
  - reflexivity.
  - vm_compute. reflexivity.
  - vm_compute. reflexivity.
  - discriminate.
  - reflexivity.
  - reflexivity.
  - reflexivity.
Defined.
